(** * ViewManager: camera pose, input translation and per-frame matrices

    A shallow embedding of [ViewManager.cpp].  The C++ code works on
    IEEE [float]/[double] values; here every such value is idealised as
    a real number ([R]), so a conversion between [double] and [float]
    is the identity and arithmetic does not round.  Calls into GLFW,
    OpenGL, [std::cout] and the shader manager are recorded in an
    effect trace, in the order the code issues them. *)

From Stdlib Require Import Reals Lra Lia List String ZArith Bool.
Import ListNotations.
Open Scope R_scope.

(** ** GLM: the vector and matrix operations the file calls *)

Module glm.

Record vec3 : Type := mkvec3 { x : R; y : R; z : R }.
Record vec4 : Type := mkvec4 { x4 : R; y4 : R; z4 : R; w4 : R }.

(** [glm::mat4] is column-major: [m[c]] is column [c], [m[c][r]] its
    row [r]. *)
Record mat4 : Type := mkmat4 { col0 : vec4; col1 : vec4; col2 : vec4; col3 : vec4 }.

Definition add (a b : vec3) : vec3 :=
  mkvec3 (x a + x b) (y a + y b) (z a + z b).

Definition sub (a b : vec3) : vec3 :=
  mkvec3 (x a - x b) (y a - y b) (z a - z b).

(** [s * v] and [v * s] *)
Definition scale (s : R) (v : vec3) : vec3 :=
  mkvec3 (s * x v) (s * y v) (s * z v).

Definition scale_r (v : vec3) (s : R) : vec3 :=
  mkvec3 (x v * s) (y v * s) (z v * s).

Definition dot (a b : vec3) : R :=
  x a * x b + y a * y b + z a * z b.

Definition cross (a b : vec3) : vec3 :=
  mkvec3 (y a * z b - y b * z a)
         (z a * x b - z b * x a)
         (x a * y b - x b * y a).

Definition length (v : vec3) : R := sqrt (dot v v).

Definition inversesqrt (a : R) : R := 1 / sqrt a.

(** [glm::normalize(v)] is [v * inversesqrt(dot(v, v))]. *)
Definition normalize (v : vec3) : vec3 :=
  scale_r v (inversesqrt (dot v v)).

(** [glm::radians(degrees)] is [degrees * (pi / 180)]. *)
Definition radians (degrees : R) : R := degrees * (PI / 180).

(** [glm::lookAt(eye, center, up)], right-handed. *)
Definition lookAt (eye center up : vec3) : mat4 :=
  let f := normalize (sub center eye) in
  let s := normalize (cross f up) in
  let u := cross s f in
  mkmat4 (mkvec4 (x s) (x u) (- x f) 0)
         (mkvec4 (y s) (y u) (- y f) 0)
         (mkvec4 (z s) (z u) (- z f) 0)
         (mkvec4 (- dot s eye) (- dot u eye) (dot f eye) 1).

(** [glm::perspective(fovy, aspect, zNear, zFar)], right-handed with
    depth in [-1, 1]. *)
Definition perspective (fovy aspect zNear zFar : R) : mat4 :=
  let tanHalfFovy := tan (fovy / 2) in
  mkmat4 (mkvec4 (1 / (aspect * tanHalfFovy)) 0 0 0)
         (mkvec4 0 (1 / tanHalfFovy) 0 0)
         (mkvec4 0 0 (- (zFar + zNear) / (zFar - zNear)) (- 1))
         (mkvec4 0 0 (- (2 * zFar * zNear) / (zFar - zNear)) 0).

End glm.

(** ** The camera object

    The [Camera] class is declared in a header of its own; these are
    the fields [ViewManager.cpp] reads and writes. *)

Record Camera : Type := mkCamera {
  Position : glm.vec3;
  Front : glm.vec3;
  Up : glm.vec3;
  Yaw : R;
  Pitch : R;
  Zoom : R
}.

Definition set_Position (c : Camera) (p : glm.vec3) : Camera :=
  mkCamera p (Front c) (Up c) (Yaw c) (Pitch c) (Zoom c).
Definition set_Front (c : Camera) (f : glm.vec3) : Camera :=
  mkCamera (Position c) f (Up c) (Yaw c) (Pitch c) (Zoom c).
Definition set_Up (c : Camera) (u : glm.vec3) : Camera :=
  mkCamera (Position c) (Front c) u (Yaw c) (Pitch c) (Zoom c).
Definition set_Yaw (c : Camera) (a : R) : Camera :=
  mkCamera (Position c) (Front c) (Up c) a (Pitch c) (Zoom c).
Definition set_Pitch (c : Camera) (a : R) : Camera :=
  mkCamera (Position c) (Front c) (Up c) (Yaw c) a (Zoom c).
Definition set_Zoom (c : Camera) (a : R) : Camera :=
  mkCamera (Position c) (Front c) (Up c) (Yaw c) (Pitch c) a.

(** Modelled from the spec: [Camera::GetViewMatrix] is not part of
    [ViewManager.cpp]; the specification gives it as the look-at
    transform computed from [position], [position + front] and [up]. *)
Definition GetViewMatrix (c : Camera) : glm.mat4 :=
  glm.lookAt (Position c) (glm.add (Position c) (Front c)) (Up c).

(** ** Collaborators and the effect trace *)

(** Window and shader-manager handles are opaque pointers; [None] is
    the null pointer. *)
Definition GLFWwindow : Type := nat.
Definition ShaderManager : Type := nat.

Inductive Effect : Type :=
| glfwCreateWindow (width height : Z) (title : string)
| cout (msg : string)
| glfwTerminate
| glfwMakeContextCurrent (window : GLFWwindow)
| glfwSetCursorPosCallback (window : GLFWwindow)
| glEnable_GL_BLEND
| glBlendFunc_SRC_ALPHA_ONE_MINUS_SRC_ALPHA
| glfwSetWindowShouldClose (window : GLFWwindow) (value : bool)
| setMat4Value (shader : ShaderManager) (name : string) (m : glm.mat4).

(** ** File-scope variables and [ViewManager] members *)

Definition WINDOW_WIDTH : Z := 1000.
Definition WINDOW_HEIGHT : Z := 800.
Definition g_ViewName : string := "view".
Definition g_ProjectionName : string := "projection".

Record State : Type := mkState {
  g_pCamera : Camera;
  gLastX : R;
  gLastY : R;
  gFirstMouse : bool;
  gDeltaTime : R;
  gLastFrame : R;
  bOrthographicProjection : bool;
  m_pShaderManager : option ShaderManager;
  m_pWindow : option GLFWwindow;
  trace : list Effect
}.

Definition set_g_pCamera (s : State) (c : Camera) : State :=
  mkState c (gLastX s) (gLastY s) (gFirstMouse s) (gDeltaTime s)
          (gLastFrame s) (bOrthographicProjection s)
          (m_pShaderManager s) (m_pWindow s) (trace s).
Definition set_gLastX (s : State) (v : R) : State :=
  mkState (g_pCamera s) v (gLastY s) (gFirstMouse s) (gDeltaTime s)
          (gLastFrame s) (bOrthographicProjection s)
          (m_pShaderManager s) (m_pWindow s) (trace s).
Definition set_gLastY (s : State) (v : R) : State :=
  mkState (g_pCamera s) (gLastX s) v (gFirstMouse s) (gDeltaTime s)
          (gLastFrame s) (bOrthographicProjection s)
          (m_pShaderManager s) (m_pWindow s) (trace s).
Definition set_gFirstMouse (s : State) (b : bool) : State :=
  mkState (g_pCamera s) (gLastX s) (gLastY s) b (gDeltaTime s)
          (gLastFrame s) (bOrthographicProjection s)
          (m_pShaderManager s) (m_pWindow s) (trace s).
Definition set_m_pWindow (s : State) (w : option GLFWwindow) : State :=
  mkState (g_pCamera s) (gLastX s) (gLastY s) (gFirstMouse s) (gDeltaTime s)
          (gLastFrame s) (bOrthographicProjection s)
          (m_pShaderManager s) w (trace s).
Definition emit (s : State) (e : Effect) : State :=
  mkState (g_pCamera s) (gLastX s) (gLastY s) (gFirstMouse s) (gDeltaTime s)
          (gLastFrame s) (bOrthographicProjection s)
          (m_pShaderManager s) (m_pWindow s) (trace s ++ [e]).

(** ** [ViewManager::ViewManager]

    [new Camera()] runs the default constructor of the absent [Camera]
    class; its result is the parameter [new_Camera].  The file-scope
    variables hold their static initialisers. *)
Definition ViewManager (new_Camera : Camera) (pShaderManager : option ShaderManager) : State :=
  let c := new_Camera in
  let c := set_Position c (glm.mkvec3 0 5 12) in
  let c := set_Front c (glm.mkvec3 0 (- 0.5) (- 2)) in
  let c := set_Up c (glm.mkvec3 0 1 0) in
  let c := set_Zoom c 80 in
  mkState c
          (IZR WINDOW_WIDTH / 2) (IZR WINDOW_HEIGHT / 2) true
          0 0 false
          pShaderManager None [].

(** ** [ViewManager::Mouse_Position_Callback] *)

Definition sensitivity : R := 0.1.

(** The [if (gFirstMouse)] block. *)
Definition seed_first_mouse (s : State) (xMousePos yMousePos : R) : State :=
  if gFirstMouse s
  then set_gFirstMouse (set_gLastY (set_gLastX s xMousePos) yMousePos) false
  else s.

(** The locals [xoffset] and [yoffset] before scaling. *)
Definition xoffset (s : State) (xMousePos yMousePos : R) : R :=
  xMousePos - gLastX (seed_first_mouse s xMousePos yMousePos).
Definition yoffset (s : State) (xMousePos yMousePos : R) : R :=
  gLastY (seed_first_mouse s xMousePos yMousePos) - yMousePos.

(** The two [if]s that keep the pitch within bounds. *)
Definition clamp_Pitch (c : Camera) : Camera :=
  let c := if Rgt_dec (Pitch c) 89 then set_Pitch c 89 else c in
  if Rlt_dec (Pitch c) (- 89) then set_Pitch c (- 89) else c.

(** The local [front] before normalisation. *)
Definition front_of (c : Camera) : glm.vec3 :=
  glm.mkvec3
    (cos (glm.radians (Yaw c)) * cos (glm.radians (Pitch c)))
    (sin (glm.radians (Pitch c)))
    (sin (glm.radians (Yaw c)) * cos (glm.radians (Pitch c))).

Definition Mouse_Position_Callback (s : State) (xMousePos yMousePos : R) : State :=
  let s := seed_first_mouse s xMousePos yMousePos in
  let xoffset := xMousePos - gLastX s in
  let yoffset := gLastY s - yMousePos in
  let s := set_gLastX s xMousePos in
  let s := set_gLastY s yMousePos in
  let xoffset := xoffset * sensitivity in
  let yoffset := yoffset * sensitivity in
  let c := g_pCamera s in
  let c := set_Yaw c (Yaw c + xoffset) in
  let c := set_Pitch c (Pitch c + yoffset) in
  let c := clamp_Pitch c in
  let c := set_Front c (glm.normalize (front_of c)) in
  set_g_pCamera s c.

(** ** [ViewManager::ProcessKeyboardEvents]

    [glfwGetKey(window, k) == GLFW_PRESS] is the poll [pressed k]. *)

Inductive Key : Type :=
| GLFW_KEY_ESCAPE
| GLFW_KEY_W
| GLFW_KEY_S
| GLFW_KEY_A
| GLFW_KEY_D.

Definition ProcessKeyboardEvents
    (s : State) (window : GLFWwindow) (pressed : Key -> bool) (deltatime : R) : State :=
  let s := if pressed GLFW_KEY_ESCAPE
           then emit s (glfwSetWindowShouldClose window true)
           else s in
  let cameraSpeed := 2.5 * deltatime in
  let c := g_pCamera s in
  let c := if pressed GLFW_KEY_W
           then set_Position c (glm.add (Position c) (glm.scale cameraSpeed (Front c)))
           else c in
  let c := if pressed GLFW_KEY_S
           then set_Position c (glm.sub (Position c) (glm.scale cameraSpeed (Front c)))
           else c in
  let c := if pressed GLFW_KEY_A
           then set_Position c
                  (glm.sub (Position c)
                     (glm.scale_r (glm.normalize (glm.cross (Front c) (Up c))) cameraSpeed))
           else c in
  let c := if pressed GLFW_KEY_D
           then set_Position c
                  (glm.add (Position c)
                     (glm.scale_r (glm.normalize (glm.cross (Front c) (Up c))) cameraSpeed))
           else c in
  set_g_pCamera s c.

(** A poll in which exactly the key [k] is down. *)
Definition Key_eqb (a b : Key) : bool :=
  match a, b with
  | GLFW_KEY_ESCAPE, GLFW_KEY_ESCAPE
  | GLFW_KEY_W, GLFW_KEY_W
  | GLFW_KEY_S, GLFW_KEY_S
  | GLFW_KEY_A, GLFW_KEY_A
  | GLFW_KEY_D, GLFW_KEY_D => true
  | _, _ => false
  end.

Definition only (k : Key) : Key -> bool := fun k' => Key_eqb k k'.

(** ** [ViewManager::CreateDisplayWindow]

    [created] is what the one call of [glfwCreateWindow] returns. *)
Definition CreateDisplayWindow
    (s : State) (windowTitle : string) (created : option GLFWwindow)
  : option GLFWwindow * State :=
  let s := emit s (glfwCreateWindow WINDOW_WIDTH WINDOW_HEIGHT windowTitle) in
  match created with
  | None =>
      let s := emit s (cout "Failed to create GLFW window") in
      let s := emit s glfwTerminate in
      (None, s)
  | Some window =>
      let s := emit s (glfwMakeContextCurrent window) in
      let s := emit s (glfwSetCursorPosCallback window) in
      let s := emit s glEnable_GL_BLEND in
      let s := emit s glBlendFunc_SRC_ALPHA_ONE_MINUS_SRC_ALPHA in
      let s := set_m_pWindow s (Some window) in
      (Some window, s)
  end.

(** ** [ViewManager::PrepareSceneView] *)

(** The local [projection]. *)
Definition projection_of (c : Camera) : glm.mat4 :=
  glm.perspective (glm.radians (Zoom c))
                  (IZR WINDOW_WIDTH / IZR WINDOW_HEIGHT) 0.1 100.

Definition PrepareSceneView (s : State) : State :=
  let view := GetViewMatrix (g_pCamera s) in
  let s := match m_pShaderManager s with
           | Some sm => emit s (setMat4Value sm g_ViewName view)
           | None => s
           end in
  let projection := projection_of (g_pCamera s) in
  let s := match m_pShaderManager s with
           | Some sm => emit s (setMat4Value sm g_ProjectionName projection)
           | None => s
           end in
  s.

(** ** Runs of the controller

    The operations a host can invoke on a constructed [ViewManager],
    with the inputs each one takes from outside. *)
Inductive Op : Type :=
| OpCreateDisplayWindow (windowTitle : string) (created : option GLFWwindow)
| OpMouse (xMousePos yMousePos : R)
| OpKeyboard (window : GLFWwindow) (pressed : Key -> bool) (deltatime : R)
| OpPrepareSceneView.

Definition step (s : State) (o : Op) : State :=
  match o with
  | OpCreateDisplayWindow t w => snd (CreateDisplayWindow s t w)
  | OpMouse xp yp => Mouse_Position_Callback s xp yp
  | OpKeyboard w k dt => ProcessKeyboardEvents s w k dt
  | OpPrepareSceneView => PrepareSceneView s
  end.

Definition run (s : State) (ops : list Op) : State := fold_left step ops s.

(** How often [glfwCreateWindow] and [setMat4Value] occur in a trace. *)
Definition is_glfwCreateWindow (e : Effect) : bool :=
  match e with glfwCreateWindow _ _ _ => true | _ => false end.

Definition is_upload_of (name : string) (e : Effect) : bool :=
  match e with setMat4Value _ n _ => String.eqb n name | _ => false end.

Definition count (p : Effect -> bool) (t : list Effect) : nat :=
  List.length (filter p t).

(** ** Sample inputs

    [new Camera()] is not in this file; [sample_Camera] is one possible
    result of it, used only to run the operations on concrete inputs. *)
Definition sample_Camera : Camera :=
  mkCamera (glm.mkvec3 0 0 0) (glm.mkvec3 0 0 (- 1)) (glm.mkvec3 0 1 0) (- 90) 0 45.

(** The controller after construction with shader manager [sm]. *)
Definition with_shader (sm : option ShaderManager) : State :=
  ViewManager sample_Camera sm.

(** The controller after construction and a first pointer event at
    [(500, y)]. *)
Definition seeded (y : R) : State :=
  Mouse_Position_Callback (with_shader None) 500 y.

(** ** The pose the constructor sets *)

(** The camera has the constructor's pose, but for the front vector,
    which every pointer event rebuilds. *)
Definition initial_pose (new_Camera c : Camera) : Prop :=
  let c0 := g_pCamera (ViewManager new_Camera None) in
  Position c = Position c0 /\
  Up c = Up c0 /\
  Zoom c = Zoom c0 /\
  Yaw c = Yaw c0 /\
  Pitch c = Pitch c0.

(** ** Reading runs and traces *)

Definition is_OpMouse (o : Op) : bool :=
  match o with OpMouse _ _ => true | _ => false end.

Definition is_OpPrepareSceneView (o : Op) : bool :=
  match o with OpPrepareSceneView => true | _ => false end.

(** The handle of the last window creation of [ops] that succeeded,
    [w0] when none did. *)
Definition last_window (w0 : option GLFWwindow) (ops : list Op) : option GLFWwindow :=
  fold_left
    (fun w o =>
       match o with
       | OpCreateDisplayWindow _ (Some h) => Some h
       | _ => w
       end)
    ops w0.

Definition is_cout (e : Effect) : bool :=
  match e with cout _ => true | _ => false end.

Definition is_glfwTerminate (e : Effect) : bool :=
  match e with glfwTerminate => true | _ => false end.

Definition is_glfwMakeContextCurrent (e : Effect) : bool :=
  match e with glfwMakeContextCurrent _ => true | _ => false end.

Definition is_glfwSetCursorPosCallback (e : Effect) : bool :=
  match e with glfwSetCursorPosCallback _ => true | _ => false end.

Definition is_setMat4Value (e : Effect) : bool :=
  match e with setMat4Value _ _ _ => true | _ => false end.

(** The poll [pressed] with the escape key taken as up. *)
Definition without_escape (pressed : Key -> bool) : Key -> bool :=
  fun k => match k with GLFW_KEY_ESCAPE => false | _ => pressed k end.

(** The front vector is the one built from yaw and pitch, and the
    pitch is within its bounds: what a pointer event leaves behind. *)
Definition oriented (c : Camera) : Prop :=
  Front c = front_of c /\ - 89 <= Pitch c <= 89.

(** * Properties *)

(** ** Vector facts *)

Lemma vec3_eq (a b : glm.vec3) :
  glm.x a = glm.x b -> glm.y a = glm.y b -> glm.z a = glm.z b -> a = b.
Proof.
  destruct a, b; simpl; intros; subst; reflexivity.
Qed.

Lemma dot_front_of (c : Camera) : glm.dot (front_of c) (front_of c) = 1.
Proof.
  unfold glm.dot, front_of; simpl.
  pose proof (sin2_cos2 (glm.radians (Yaw c))) as Hy.
  pose proof (sin2_cos2 (glm.radians (Pitch c))) as Hp.
  unfold Rsqr in Hy, Hp.
  nra.
Qed.

Lemma inversesqrt_1 : glm.inversesqrt 1 = 1.
Proof.
  unfold glm.inversesqrt. rewrite sqrt_1. lra.
Qed.

(** The vector built from yaw and pitch is already of length one, so
    normalising it returns it. *)
Lemma normalize_front_of (c : Camera) : glm.normalize (front_of c) = front_of c.
Proof.
  unfold glm.normalize. rewrite dot_front_of, inversesqrt_1.
  apply vec3_eq; simpl; lra.
Qed.

Lemma length_front_of (c : Camera) : glm.length (front_of c) = 1.
Proof.
  unfold glm.length. rewrite dot_front_of. apply sqrt_1.
Qed.

Lemma dot_cross_l (a b : glm.vec3) : glm.dot (glm.cross a b) a = 0.
Proof.
  unfold glm.dot, glm.cross; simpl. ring.
Qed.

Lemma dot_scale_r (v w : glm.vec3) (k : R) :
  glm.dot (glm.scale_r v k) w = k * glm.dot v w.
Proof.
  unfold glm.dot, glm.scale_r; simpl. ring.
Qed.

(** ** The pitch bound *)

Lemma clamp_Pitch_above (c : Camera) :
  Pitch c > 89 -> clamp_Pitch c = set_Pitch c 89.
Proof.
  intros H. unfold clamp_Pitch.
  destruct (Rgt_dec (Pitch c) 89) as [_ | n]; [ | contradiction ].
  destruct (Rlt_dec (Pitch (set_Pitch c 89)) (- 89)) as [l | _]; [ | reflexivity ].
  simpl in l. lra.
Qed.

Lemma clamp_Pitch_below (c : Camera) :
  Pitch c < - 89 -> clamp_Pitch c = set_Pitch c (- 89).
Proof.
  intros H. unfold clamp_Pitch.
  destruct (Rgt_dec (Pitch c) 89) as [g | _]; [ lra | ].
  destruct (Rlt_dec (Pitch c) (- 89)) as [_ | n]; [ reflexivity | contradiction ].
Qed.

Lemma clamp_Pitch_within (c : Camera) :
  - 89 <= Pitch c <= 89 -> clamp_Pitch c = c.
Proof.
  intros H. unfold clamp_Pitch.
  destruct (Rgt_dec (Pitch c) 89) as [g | _]; [ lra | ].
  destruct (Rlt_dec (Pitch c) (- 89)) as [l | _]; [ lra | reflexivity ].
Qed.

(** Case split on the two comparisons of the clamp. *)
Ltac clamp_cases :=
  unfold clamp_Pitch;
  repeat match goal with
         | |- context [Rgt_dec ?a ?b] => destruct (Rgt_dec a b)
         | |- context [Rlt_dec ?a ?b] => destruct (Rlt_dec a b)
         end.

Lemma clamp_Pitch_frame (c : Camera) :
  Position (clamp_Pitch c) = Position c /\
  Front (clamp_Pitch c) = Front c /\
  Up (clamp_Pitch c) = Up c /\
  Yaw (clamp_Pitch c) = Yaw c /\
  Zoom (clamp_Pitch c) = Zoom c.
Proof.
  clamp_cases; simpl; repeat split; reflexivity.
Qed.

Lemma clamp_Pitch_bounds (c : Camera) : - 89 <= Pitch (clamp_Pitch c) <= 89.
Proof.
  clamp_cases; simpl in *; lra.
Qed.

(** ** What one pointer-move event leaves behind *)

(** The camera after the callback, field by field. *)
Lemma Mouse_Position_Callback_camera (s : State) (xp yp : R) :
  let c := g_pCamera s in
  let c1 := clamp_Pitch
              (set_Pitch (set_Yaw c (Yaw c + xoffset s xp yp * sensitivity))
                         (Pitch c + yoffset s xp yp * sensitivity)) in
  g_pCamera (Mouse_Position_Callback s xp yp)
  = set_Front c1 (glm.normalize (front_of c1)).
Proof.
  unfold Mouse_Position_Callback, xoffset, yoffset, seed_first_mouse.
  destruct (gFirstMouse s); reflexivity.
Qed.

Lemma Mouse_Position_Callback_Front (s : State) (xp yp : R) :
  let c' := g_pCamera (Mouse_Position_Callback s xp yp) in
  Front c' = glm.normalize (front_of c').
Proof.
  cbv zeta. rewrite Mouse_Position_Callback_camera. reflexivity.
Qed.

Lemma Mouse_Position_Callback_Front_unit (s : State) (xp yp : R) :
  glm.length (Front (g_pCamera (Mouse_Position_Callback s xp yp))) = 1.
Proof.
  rewrite Mouse_Position_Callback_Front, normalize_front_of.
  apply length_front_of.
Qed.

(** ** Frame properties of the operations *)

Lemma Mouse_Position_Callback_frame (s : State) (xp yp : R) :
  let s' := Mouse_Position_Callback s xp yp in
  Position (g_pCamera s') = Position (g_pCamera s) /\
  Up (g_pCamera s') = Up (g_pCamera s) /\
  Zoom (g_pCamera s') = Zoom (g_pCamera s) /\
  gDeltaTime s' = gDeltaTime s /\
  gLastFrame s' = gLastFrame s /\
  bOrthographicProjection s' = bOrthographicProjection s /\
  m_pShaderManager s' = m_pShaderManager s /\
  m_pWindow s' = m_pWindow s /\
  trace s' = trace s.
Proof.
  cbv zeta. rewrite Mouse_Position_Callback_camera. cbv zeta.
  destruct (clamp_Pitch_frame
              (set_Pitch (set_Yaw (g_pCamera s)
                                  (Yaw (g_pCamera s) + xoffset s xp yp * sensitivity))
                         (Pitch (g_pCamera s) + yoffset s xp yp * sensitivity)))
    as (Hpos & _ & Hup & _ & Hzoom).
  simpl. rewrite Hpos, Hup, Hzoom.
  unfold Mouse_Position_Callback, seed_first_mouse.
  destruct (gFirstMouse s); simpl; repeat split; reflexivity.
Qed.

Lemma ProcessKeyboardEvents_frame
    (s : State) (window : GLFWwindow) (pressed : Key -> bool) (deltatime : R) :
  let s' := ProcessKeyboardEvents s window pressed deltatime in
  Front (g_pCamera s') = Front (g_pCamera s) /\
  Up (g_pCamera s') = Up (g_pCamera s) /\
  Yaw (g_pCamera s') = Yaw (g_pCamera s) /\
  Pitch (g_pCamera s') = Pitch (g_pCamera s) /\
  Zoom (g_pCamera s') = Zoom (g_pCamera s) /\
  gLastX s' = gLastX s /\
  gLastY s' = gLastY s /\
  gFirstMouse s' = gFirstMouse s /\
  m_pShaderManager s' = m_pShaderManager s /\
  m_pWindow s' = m_pWindow s.
Proof.
  unfold ProcessKeyboardEvents.
  destruct (pressed GLFW_KEY_ESCAPE), (pressed GLFW_KEY_W), (pressed GLFW_KEY_S),
           (pressed GLFW_KEY_A), (pressed GLFW_KEY_D);
    simpl; repeat split; reflexivity.
Qed.

Lemma CreateDisplayWindow_camera (s : State) (t : string) (w : option GLFWwindow) :
  g_pCamera (snd (CreateDisplayWindow s t w)) = g_pCamera s.
Proof.
  unfold CreateDisplayWindow. destruct w; reflexivity.
Qed.

(** [PrepareSceneView] in one step: both uploads or none. *)
Lemma PrepareSceneView_eq (s : State) :
  PrepareSceneView s =
  match m_pShaderManager s with
  | Some sm =>
      emit (emit s (setMat4Value sm g_ViewName (GetViewMatrix (g_pCamera s))))
           (setMat4Value sm g_ProjectionName (projection_of (g_pCamera s)))
  | None => s
  end.
Proof.
  destruct s as [c lx ly fm dt lf op [sm | ] w t]; reflexivity.
Qed.

Lemma PrepareSceneView_camera (s : State) :
  g_pCamera (PrepareSceneView s) = g_pCamera s.
Proof.
  rewrite PrepareSceneView_eq. destruct (m_pShaderManager s); reflexivity.
Qed.

Lemma step_Zoom (s : State) (o : Op) :
  Zoom (g_pCamera (step s o)) = Zoom (g_pCamera s).
Proof.
  destruct o; simpl.
  - now rewrite CreateDisplayWindow_camera.
  - apply (Mouse_Position_Callback_frame s xMousePos yMousePos).
  - apply (ProcessKeyboardEvents_frame s window pressed deltatime).
  - now rewrite PrepareSceneView_camera.
Qed.

Lemma run_Zoom (ops : list Op) (s : State) :
  Zoom (g_pCamera (run s ops)) = Zoom (g_pCamera s).
Proof.
  unfold run. revert s. induction ops as [ | o ops IH ]; intros s; simpl.
  - reflexivity.
  - rewrite IH. apply step_Zoom.
Qed.

(** ** Yaw, pitch and the tracking variables after a pointer event *)

Lemma Pitch_clamp_Pitch (c : Camera) :
  Pitch (clamp_Pitch c) = Rmax (- 89) (Rmin 89 (Pitch c)).
Proof.
  destruct (Rgt_dec (Pitch c) 89) as [Hgt | Hle].
  - rewrite clamp_Pitch_above by exact Hgt. simpl.
    rewrite Rmin_left by lra. rewrite Rmax_right by lra. reflexivity.
  - destruct (Rlt_dec (Pitch c) (- 89)) as [Hlt | Hge].
    + rewrite clamp_Pitch_below by exact Hlt. simpl.
      rewrite Rmin_right by lra. rewrite Rmax_left by lra. reflexivity.
    + rewrite clamp_Pitch_within by lra.
      rewrite Rmin_right by lra. rewrite Rmax_right by lra. reflexivity.
Qed.

Lemma Mouse_Position_Callback_Yaw (s : State) (xp yp : R) :
  Yaw (g_pCamera (Mouse_Position_Callback s xp yp))
  = Yaw (g_pCamera s) + xoffset s xp yp * sensitivity.
Proof.
  rewrite Mouse_Position_Callback_camera. cbv zeta. simpl Yaw.
  match goal with |- Yaw (clamp_Pitch ?c) = _ =>
    destruct (clamp_Pitch_frame c) as (_ & _ & _ & Hyaw & _); rewrite Hyaw
  end.
  reflexivity.
Qed.

Lemma Mouse_Position_Callback_Pitch (s : State) (xp yp : R) :
  Pitch (g_pCamera (Mouse_Position_Callback s xp yp))
  = Rmax (- 89) (Rmin 89 (Pitch (g_pCamera s) + yoffset s xp yp * sensitivity)).
Proof.
  rewrite Mouse_Position_Callback_camera. cbv zeta. simpl Pitch.
  rewrite Pitch_clamp_Pitch. reflexivity.
Qed.

Lemma Mouse_Position_Callback_tracking (s : State) (xp yp : R) :
  let s' := Mouse_Position_Callback s xp yp in
  gLastX s' = xp /\ gLastY s' = yp /\ gFirstMouse s' = false.
Proof.
  unfold Mouse_Position_Callback, seed_first_mouse.
  destruct (gFirstMouse s) eqn:E; simpl; repeat split; try reflexivity.
  exact E.
Qed.

Lemma offsets_first (s : State) (xp yp : R) :
  gFirstMouse s = true -> xoffset s xp yp = 0 /\ yoffset s xp yp = 0.
Proof.
  intros E. unfold xoffset, yoffset, seed_first_mouse. rewrite E. simpl.
  split; lra.
Qed.

Lemma offsets_later (s : State) (xp yp : R) :
  gFirstMouse s = false ->
  xoffset s xp yp = xp - gLastX s /\ yoffset s xp yp = gLastY s - yp.
Proof.
  intros E. unfold xoffset, yoffset, seed_first_mouse. rewrite E.
  split; reflexivity.
Qed.

Lemma Rmax_Rmin_within (p : R) :
  - 89 <= p <= 89 -> Rmax (- 89) (Rmin 89 p) = p.
Proof.
  intros H. rewrite Rmin_right by lra. rewrite Rmax_right by lra. reflexivity.
Qed.

(** The state [seeded y], field by field. *)
Lemma seeded_facts (y : R) :
  gFirstMouse (seeded y) = false /\
  gLastX (seeded y) = 500 /\
  gLastY (seeded y) = y /\
  Yaw (g_pCamera (seeded y)) = - 90 /\
  Pitch (g_pCamera (seeded y)) = 0 /\
  Position (g_pCamera (seeded y)) = glm.mkvec3 0 5 12 /\
  Up (g_pCamera (seeded y)) = glm.mkvec3 0 1 0 /\
  Zoom (g_pCamera (seeded y)) = 80.
Proof.
  unfold seeded. set (s0 := with_shader None).
  destruct (offsets_first s0 500 y eq_refl) as [Hx Hy].
  destruct (Mouse_Position_Callback_frame s0 500 y) as (Hpos & Hup & Hzoom & _).
  destruct (Mouse_Position_Callback_tracking s0 500 y) as (Hlx & Hly & E).
  pose proof (Mouse_Position_Callback_Yaw s0 500 y) as Hyaw.
  pose proof (Mouse_Position_Callback_Pitch s0 500 y) as Hpitch.
  rewrite Hx in Hyaw. rewrite Hy in Hpitch.
  rewrite Rmax_Rmin_within in Hpitch by (simpl; lra).
  split; [ exact E | ].
  split; [ exact Hlx | ].
  split; [ exact Hly | ].
  split; [ rewrite Hyaw; simpl; lra | ].
  split; [ rewrite Hpitch; simpl; lra | ].
  split; [ rewrite Hpos; reflexivity | ].
  split; [ rewrite Hup; reflexivity | rewrite Hzoom; reflexivity ].
Qed.

(** ** C1: the pitch clamp *)

(** C1.  Whenever the accumulated pitch (the stored pitch plus the
    y-offset scaled by the sensitivity) exceeds 89 degrees, resp. falls
    below -89 degrees, the callback stores exactly [bound] = 89, resp.
    -89, as pitch; the front vector is recomputed from the stored
    (clamped) pitch, and its y component is [sin (radians 89)], resp.
    the negative of it. *)
Theorem Mouse_Position_Callback_clamps_pitch (s : State) (xp yp bound : R) :
  let accumulated := Pitch (g_pCamera s) + yoffset s xp yp * sensitivity in
  (bound = 89 /\ accumulated > 89) \/ (bound = - 89 /\ accumulated < - 89) ->
  let c' := g_pCamera (Mouse_Position_Callback s xp yp) in
  Pitch c' = bound /\
  Front c' = glm.normalize (front_of c') /\
  glm.y (Front c') = sin (glm.radians bound) /\
  glm.y (Front c') = bound / 89 * sin (glm.radians 89).
Proof.
  intros accumulated H c'.
  assert (Hp : Pitch c' = bound).
  { subst c'. rewrite Mouse_Position_Callback_camera. cbv zeta. simpl Pitch.
    destruct H as [[-> Hacc] | [-> Hacc]].
    - rewrite clamp_Pitch_above; [ reflexivity | exact Hacc ].
    - rewrite clamp_Pitch_below; [ reflexivity | exact Hacc ]. }
  assert (Hf : Front c' = glm.normalize (front_of c'))
    by apply Mouse_Position_Callback_Front.
  assert (Hy : glm.y (Front c') = sin (glm.radians bound)).
  { rewrite Hf, normalize_front_of. unfold front_of. cbn [glm.y].
    rewrite Hp. reflexivity. }
  repeat split; try assumption.
  rewrite Hy.
  destruct H as [[-> _] | [-> _]].
  - field.
  - replace (glm.radians (- 89)) with (- glm.radians 89)
      by (unfold glm.radians; lra).
    rewrite sin_neg. field.
Qed.

Lemma Mouse_Position_Callback_clamps_pitch_witness :
  (let s := seeded 1000 in
   let c' := g_pCamera (Mouse_Position_Callback s 500 0) in
   Pitch (g_pCamera s) + yoffset s 500 0 * sensitivity > 89 /\
   (Pitch c' = 89 /\
    Front c' = glm.normalize (front_of c') /\
    glm.y (Front c') = sin (glm.radians 89) /\
    glm.y (Front c') = 89 / 89 * sin (glm.radians 89))) /\
  (let s := seeded 0 in
   let c' := g_pCamera (Mouse_Position_Callback s 500 1000) in
   Pitch (g_pCamera s) + yoffset s 500 1000 * sensitivity < - 89 /\
   (Pitch c' = - 89 /\
    Front c' = glm.normalize (front_of c') /\
    glm.y (Front c') = sin (glm.radians (- 89)) /\
    glm.y (Front c') = - 89 / 89 * sin (glm.radians 89))).
Proof.
  assert (Hup : Pitch (g_pCamera (seeded 1000))
                + yoffset (seeded 1000) 500 0 * sensitivity > 89).
  { destruct (seeded_facts 1000) as (E & _ & Hly & _ & Hp & _).
    destruct (offsets_later (seeded 1000) 500 0 E) as [_ Hy].
    rewrite Hp, Hy, Hly. unfold sensitivity. lra. }
  assert (Hdown : Pitch (g_pCamera (seeded 0))
                  + yoffset (seeded 0) 500 1000 * sensitivity < - 89).
  { destruct (seeded_facts 0) as (E & _ & Hly & _ & Hp & _).
    destruct (offsets_later (seeded 0) 500 1000 E) as [_ Hy].
    rewrite Hp, Hy, Hly. unfold sensitivity. lra. }
  split; cbv zeta.
  - split; [ exact Hup | ].
    apply (Mouse_Position_Callback_clamps_pitch (seeded 1000) 500 0 89).
    left; split; [ reflexivity | exact Hup ].
  - split; [ exact Hdown | ].
    apply (Mouse_Position_Callback_clamps_pitch (seeded 0) 500 1000 (- 89)).
    right; split; [ reflexivity | exact Hdown ].
Defined.

(** ** C2: length of the front vector *)

Lemma step_Front (s : State) (o : Op) :
  Front (g_pCamera (step s o)) = Front (g_pCamera s) \/
  glm.length (Front (g_pCamera (step s o))) = 1.
Proof.
  destruct o; simpl.
  - left. now rewrite CreateDisplayWindow_camera.
  - right. apply Mouse_Position_Callback_Front_unit.
  - left. apply (ProcessKeyboardEvents_frame s window pressed deltatime).
  - left. now rewrite PrepareSceneView_camera.
Qed.

Lemma run_Front (ops : list Op) (s : State) :
  Front (g_pCamera (run s ops)) = Front (g_pCamera s) \/
  glm.length (Front (g_pCamera (run s ops))) = 1.
Proof.
  unfold run. revert s. induction ops as [ | o ops IH ]; intros s; simpl.
  - left; reflexivity.
  - destruct (IH (step s o)) as [Heq | Hunit]; [ | right; exact Hunit ].
    rewrite Heq.
    destruct (step_Front s o) as [Heq' | Hunit'].
    + left; exact Heq'.
    + right; exact Hunit'.
Qed.

Lemma length_initial_Front : glm.length (glm.mkvec3 0 (- 0.5) (- 2)) <> 1.
Proof.
  unfold glm.length, glm.dot; simpl. intros H.
  assert (Hsq : sqrt (0 * 0 + - 0.5 * - 0.5 + - 2 * - 2)
                * sqrt (0 * 0 + - 0.5 * - 0.5 + - 2 * - 2)
                = 0 * 0 + - 0.5 * - 0.5 + - 2 * - 2)
    by (apply sqrt_sqrt; lra).
  rewrite H in Hsq. lra.
Qed.

(** C2.  The front vector the constructor stores is (0, -0.5, -2), of
    squared length 4.25: it is not a unit vector, and keyboard
    processing keeps it.  Every pointer event stores a front vector of
    length one, so a state reached from the constructor has either the
    constructor's front vector or one of length one. *)
Theorem front_unit_only_after_pointer_event :
  (forall (new_Camera : Camera) (sm : option ShaderManager),
      let c := g_pCamera (ViewManager new_Camera sm) in
      Front c = glm.mkvec3 0 (- 0.5) (- 2) /\
      glm.dot (Front c) (Front c) = 4.25 /\
      glm.length (Front c) <> 1) /\
  (forall (new_Camera : Camera) (sm : option ShaderManager)
          (window : GLFWwindow) (pressed : Key -> bool) (deltatime : R),
      let s := ProcessKeyboardEvents (ViewManager new_Camera sm) window pressed deltatime in
      glm.length (Front (g_pCamera s)) <> 1) /\
  (forall (s : State) (xp yp : R),
      glm.length (Front (g_pCamera (Mouse_Position_Callback s xp yp))) = 1) /\
  (forall (new_Camera : Camera) (sm : option ShaderManager) (ops : list Op),
      let c := g_pCamera (run (ViewManager new_Camera sm) ops) in
      Front c = glm.mkvec3 0 (- 0.5) (- 2) \/ glm.length (Front c) = 1).
Proof.
  split; [ | split; [ | split ] ].
  - intros c0 sm. cbv zeta. simpl Front.
    split; [ reflexivity | split ].
    + unfold glm.dot; simpl. lra.
    + apply length_initial_Front.
  - intros c0 sm window pressed deltatime. cbv zeta.
    destruct (ProcessKeyboardEvents_frame (ViewManager c0 sm) window pressed deltatime)
      as (Hfront & _).
    rewrite Hfront. apply length_initial_Front.
  - exact Mouse_Position_Callback_Front_unit.
  - intros c0 sm ops. cbv zeta.
    destruct (run_Front ops (ViewManager c0 sm)) as [Heq | Hunit].
    + left. rewrite Heq. reflexivity.
    + right. exact Hunit.
Qed.

(** ** C3: one pointer move from the initial pose *)

(** C3.  From the constructor's pose (position (0,5,12), up (0,1,0),
    zoom 80; yaw and pitch as [new Camera()] left them), a pointer
    event that is not the first and moves the pointer by (+100, -50)
    pixels adds exactly 10 degrees to the yaw and 5 degrees to the pitch
    (the pitch clamped to [-89, 89]), and the view matrix is the look-at
    matrix for the front vector rebuilt from the new yaw and pitch. *)
Theorem pointer_move_from_initial_pose
    (new_Camera : Camera) (s : State) (xp yp : R) :
  initial_pose new_Camera (g_pCamera s) ->
  gFirstMouse s = false ->
  xp - gLastX s = 100 ->
  yp - gLastY s = - 50 ->
  let c' := g_pCamera (Mouse_Position_Callback s xp yp) in
  Yaw c' = Yaw new_Camera + 10 /\
  Pitch c' = Rmax (- 89) (Rmin 89 (Pitch new_Camera + 5)) /\
  (- 89 <= Pitch new_Camera + 5 <= 89 -> Pitch c' = Pitch new_Camera + 5) /\
  Zoom c' = 80 /\
  GetViewMatrix c'
  = glm.lookAt (glm.mkvec3 0 5 12)
               (glm.add (glm.mkvec3 0 5 12)
                  (glm.normalize
                     (glm.mkvec3
                        (cos (glm.radians (Yaw c')) * cos (glm.radians (Pitch c')))
                        (sin (glm.radians (Pitch c')))
                        (sin (glm.radians (Yaw c')) * cos (glm.radians (Pitch c'))))))
               (glm.mkvec3 0 1 0).
Proof.
  intros (Hpos & Hup & Hzoom & Hyaw0 & Hpitch0) E Hdx Hdy. cbv zeta.
  simpl in Hpos, Hup, Hzoom, Hyaw0, Hpitch0.
  destruct (offsets_later s xp yp E) as [Hx Hy].
  destruct (Mouse_Position_Callback_frame s xp yp) as (Hpos' & Hup' & Hzoom' & _).
  assert (Hyaw : Yaw (g_pCamera (Mouse_Position_Callback s xp yp)) = Yaw new_Camera + 10).
  { rewrite Mouse_Position_Callback_Yaw, Hx, Hdx, Hyaw0. unfold sensitivity. lra. }
  assert (Hpitch : Pitch (g_pCamera (Mouse_Position_Callback s xp yp))
                   = Rmax (- 89) (Rmin 89 (Pitch new_Camera + 5))).
  { rewrite Mouse_Position_Callback_Pitch, Hy, Hpitch0. unfold sensitivity.
    f_equal. f_equal. lra. }
  split; [ exact Hyaw | ].
  split; [ exact Hpitch | ].
  split; [ intros Hin; rewrite Hpitch; apply Rmax_Rmin_within; exact Hin | ].
  split; [ rewrite Hzoom'; exact Hzoom | ].
  unfold GetViewMatrix.
  rewrite Hpos', Hup', Hpos, Hup.
  rewrite (Mouse_Position_Callback_Front s xp yp) at 1.
  reflexivity.
Qed.

Lemma pointer_move_from_initial_pose_witness :
  let s := seeded 400 in
  let c' := g_pCamera (Mouse_Position_Callback s 600 350) in
  (initial_pose sample_Camera (g_pCamera s) /\
   gFirstMouse s = false /\
   600 - gLastX s = 100 /\
   350 - gLastY s = - 50) /\
  Yaw c' = Yaw sample_Camera + 10 /\
  Pitch c' = Pitch sample_Camera + 5 /\
  Zoom c' = 80.
Proof.
  cbv zeta.
  destruct (seeded_facts 400) as (E & Hlx & Hly & Hyaw & Hpitch & Hpos & Hup & Hzoom).
  assert (Hpose : initial_pose sample_Camera (g_pCamera (seeded 400))).
  { unfold initial_pose. cbv zeta.
    rewrite Hpos, Hup, Hzoom, Hyaw, Hpitch. simpl.
    repeat split; reflexivity. }
  assert (Hdx : 600 - gLastX (seeded 400) = 100) by (rewrite Hlx; lra).
  assert (Hdy : 350 - gLastY (seeded 400) = - 50) by (rewrite Hly; lra).
  destruct (pointer_move_from_initial_pose sample_Camera (seeded 400) 600 350
              Hpose E Hdx Hdy)
    as (Hyaw' & _ & Hpitch' & Hzoom' & _).
  split; [ split; [ exact Hpose | split; [ exact E | split; [ exact Hdx | exact Hdy ] ] ] | ].
  split; [ exact Hyaw' | ].
  split; [ apply Hpitch'; simpl; lra | exact Hzoom' ].
Defined.

(** ** C4: the first pointer event *)

(** C4.  On the first pointer event after construction, whatever the
    coordinates, both offsets are zero, the yaw is kept, the pitch is
    only passed through the clamp, and the pointer position is seeded;
    but the front vector is rebuilt from the camera's yaw and pitch and
    differs from the one the constructor stored. *)
Theorem first_pointer_event_rebuilds_front
    (new_Camera : Camera) (sm : option ShaderManager) (xp yp : R) :
  let s := ViewManager new_Camera sm in
  let s' := Mouse_Position_Callback s xp yp in
  gFirstMouse s = true /\
  xoffset s xp yp = 0 /\
  yoffset s xp yp = 0 /\
  Yaw (g_pCamera s') = Yaw (g_pCamera s) /\
  Pitch (g_pCamera s') = Rmax (- 89) (Rmin 89 (Pitch (g_pCamera s))) /\
  gLastX s' = xp /\ gLastY s' = yp /\ gFirstMouse s' = false /\
  Front (g_pCamera s) = glm.mkvec3 0 (- 0.5) (- 2) /\
  Front (g_pCamera s') = front_of (g_pCamera s') /\
  Front (g_pCamera s') <> Front (g_pCamera s).
Proof.
  intros s s'.
  assert (E : gFirstMouse s = true) by reflexivity.
  destruct (offsets_first s xp yp E) as [Hx Hy].
  destruct (Mouse_Position_Callback_tracking s xp yp) as (Hlx & Hly & Hfm).
  assert (Hfront : Front (g_pCamera s') = front_of (g_pCamera s')).
  { unfold s'. rewrite Mouse_Position_Callback_Front at 1.
    apply normalize_front_of. }
  repeat split; try assumption.
  - unfold s'. rewrite Mouse_Position_Callback_Yaw, Hx. lra.
  - unfold s'. rewrite Mouse_Position_Callback_Pitch, Hy.
    f_equal. f_equal. lra.
  - intros Heq.
    apply length_initial_Front.
    change (glm.mkvec3 0 (- 0.5) (- 2)) with (Front (g_pCamera s)).
    rewrite <- Heq. apply Mouse_Position_Callback_Front_unit.
Qed.

(** ** C5: pointer deltas become angle increments *)

(** C5 (as the code has it).  On every pointer event but the first, the
    yaw grows by exactly [(x - lastX) * 0.1]; the pitch becomes the old
    pitch plus [(lastY - y) * 0.1] clamped to [-89, 89], which is an
    increment of exactly that amount whenever the sum stays within the
    bounds; [(x, y)] becomes the stored pointer position; and the front
    vector is the normalised vector built from the new angles, taken in
    radians.  Two events with offsets (10, 0) and then (0, 5) add
    [10 * 0.1] to the yaw and, from a pitch of at most 88.5 and at
    least -89, [5 * 0.1] to the pitch. *)
Theorem pointer_delta_updates_angles :
  (forall (s : State) (xp yp : R),
      gFirstMouse s = false ->
      let s' := Mouse_Position_Callback s xp yp in
      let c := g_pCamera s in
      let c' := g_pCamera s' in
      Yaw c' = Yaw c + (xp - gLastX s) * 0.1 /\
      Pitch c' = Rmax (- 89) (Rmin 89 (Pitch c + (gLastY s - yp) * 0.1)) /\
      (- 89 <= Pitch c + (gLastY s - yp) * 0.1 <= 89 ->
       Pitch c' = Pitch c + (gLastY s - yp) * 0.1) /\
      gLastX s' = xp /\
      gLastY s' = yp /\
      Front c' = glm.normalize
                   (glm.mkvec3
                      (cos (glm.radians (Yaw c')) * cos (glm.radians (Pitch c')))
                      (sin (glm.radians (Pitch c')))
                      (sin (glm.radians (Yaw c')) * cos (glm.radians (Pitch c'))))) /\
  (forall (s : State),
      gFirstMouse s = false ->
      - 89 <= Pitch (g_pCamera s) <= 88.5 ->
      let s1 := Mouse_Position_Callback s (gLastX s + 10) (gLastY s) in
      let s2 := Mouse_Position_Callback s1 (gLastX s1) (gLastY s1 - 5) in
      let c := g_pCamera s in
      let c2 := g_pCamera s2 in
      Yaw c2 = Yaw c + 10 * 0.1 /\
      Pitch c2 = Pitch c + 5 * 0.1 /\
      Front c2 = glm.normalize
                   (glm.mkvec3
                      (cos (glm.radians (Yaw c2)) * cos (glm.radians (Pitch c2)))
                      (sin (glm.radians (Pitch c2)))
                      (sin (glm.radians (Yaw c2)) * cos (glm.radians (Pitch c2))))).
Proof.
  assert (Hstep : forall (s : State) (xp yp : R),
      gFirstMouse s = false ->
      Yaw (g_pCamera (Mouse_Position_Callback s xp yp))
      = Yaw (g_pCamera s) + (xp - gLastX s) * 0.1 /\
      Pitch (g_pCamera (Mouse_Position_Callback s xp yp))
      = Rmax (- 89) (Rmin 89 (Pitch (g_pCamera s) + (gLastY s - yp) * 0.1))).
  { intros s xp yp E.
    destruct (offsets_later s xp yp E) as [Hx Hy].
    rewrite Mouse_Position_Callback_Yaw, Mouse_Position_Callback_Pitch, Hx, Hy.
    split; reflexivity. }
  split.
  - intros s xp yp E. cbv zeta.
    destruct (Hstep s xp yp E) as [Hyaw Hpitch].
    destruct (Mouse_Position_Callback_tracking s xp yp) as (Hlx & Hly & _).
    split; [ exact Hyaw | ].
    split; [ exact Hpitch | ].
    split; [ intros Hin; rewrite Hpitch; apply Rmax_Rmin_within; exact Hin | ].
    split; [ exact Hlx | ].
    split; [ exact Hly | ].
    apply (Mouse_Position_Callback_Front s xp yp).
  - intros s E Hin. cbv zeta.
    destruct (Mouse_Position_Callback_tracking s (gLastX s + 10) (gLastY s))
      as (Hlx1 & Hly1 & E1).
    destruct (Hstep s (gLastX s + 10) (gLastY s) E) as [Hyaw1 Hpitch1].
    set (s1 := Mouse_Position_Callback s (gLastX s + 10) (gLastY s)) in *.
    destruct (Hstep s1 (gLastX s1) (gLastY s1 - 5) E1) as [Hyaw2 Hpitch2].
    set (s2 := Mouse_Position_Callback s1 (gLastX s1) (gLastY s1 - 5)) in *.
    rewrite Rmax_Rmin_within in Hpitch1 by lra.
    rewrite Rmax_Rmin_within in Hpitch2 by lra.
    split; [ lra | ].
    split; [ lra | ].
    apply (Mouse_Position_Callback_Front s1 (gLastX s1) (gLastY s1 - 5)).
Qed.

Lemma pointer_delta_updates_angles_witness :
  let s := seeded 400 in
  (gFirstMouse s = false /\
   - 89 <= Pitch (g_pCamera s) + (gLastY s - 395) * 0.1 <= 89 /\
   Yaw (g_pCamera (Mouse_Position_Callback s 510 395))
   = Yaw (g_pCamera s) + (510 - gLastX s) * 0.1 /\
   Pitch (g_pCamera (Mouse_Position_Callback s 510 395))
   = Pitch (g_pCamera s) + (gLastY s - 395) * 0.1) /\
  (- 89 <= Pitch (g_pCamera s) <= 88.5 /\
   let s1 := Mouse_Position_Callback s (gLastX s + 10) (gLastY s) in
   let s2 := Mouse_Position_Callback s1 (gLastX s1) (gLastY s1 - 5) in
   Yaw (g_pCamera s2) = Yaw (g_pCamera s) + 10 * 0.1 /\
   Pitch (g_pCamera s2) = Pitch (g_pCamera s) + 5 * 0.1).
Proof.
  cbv zeta.
  destruct pointer_delta_updates_angles as [Hone Htwo].
  destruct (seeded_facts 400) as (E & _ & Hly & _ & Hp & _).
  assert (Hin : - 89 <= Pitch (g_pCamera (seeded 400))
                        + (gLastY (seeded 400) - 395) * 0.1 <= 89)
    by (rewrite Hp, Hly; lra).
  assert (Hin2 : - 89 <= Pitch (g_pCamera (seeded 400)) <= 88.5)
    by (rewrite Hp; lra).
  split.
  - destruct (Hone (seeded 400) 510 395 E) as (Hyaw & _ & Hpitch & _).
    split; [ exact E | ].
    split; [ exact Hin | ].
    split; [ exact Hyaw | exact (Hpitch Hin) ].
  - destruct (Htwo (seeded 400) E Hin2) as (Hyaw & Hpitch & _).
    split; [ exact Hin2 | ].
    split; [ exact Hyaw | exact Hpitch ].
Defined.

(** C5 as stated fails where the clamp acts.  After construction and a
    first pointer event at (500, 1000), an event at (500, 0) has
    [lastY - y = 1000] and would add 100 degrees to the pitch of 0; the
    stored pitch is 89. *)
Lemma pointer_delta_pitch_counterexample :
  let s := seeded 1000 in
  let s' := Mouse_Position_Callback s 500 0 in
  gFirstMouse s = false /\
  Pitch (g_pCamera s) + (gLastY s - 0) * 0.1 = 100 /\
  Pitch (g_pCamera s') = 89 /\
  Pitch (g_pCamera s') <> Pitch (g_pCamera s) + (gLastY s - 0) * 0.1.
Proof.
  cbv zeta.
  destruct (seeded_facts 1000) as (E & _ & Hly & _ & Hp & _).
  assert (Hsum : Pitch (g_pCamera (seeded 1000)) + (gLastY (seeded 1000) - 0) * 0.1 = 100)
    by (rewrite Hp, Hly; lra).
  assert (Hp' : Pitch (g_pCamera (Mouse_Position_Callback (seeded 1000) 500 0)) = 89).
  { rewrite Mouse_Position_Callback_Pitch.
    destruct (offsets_later (seeded 1000) 500 0 E) as [_ Hy].
    rewrite Hy. unfold sensitivity. rewrite Hsum.
    rewrite Rmin_left by lra. rewrite Rmax_right by lra. reflexivity. }
  split; [ exact E | ].
  split; [ exact Hsum | ].
  split; [ exact Hp' | ].
  rewrite Hp', Hsum. lra.
Qed.

(** ** C6: translation *)

Lemma sub_add_cancel (p d : glm.vec3) : glm.sub (glm.add p d) p = d.
Proof.
  apply vec3_eq; simpl; lra.
Qed.

Lemma sub_sub_cancel (p d : glm.vec3) :
  glm.sub (glm.sub p d) p = glm.scale (- 1) d.
Proof.
  apply vec3_eq; simpl; lra.
Qed.

Lemma scale_1 (v : glm.vec3) : glm.scale 1 v = v.
Proof.
  apply vec3_eq; simpl; lra.
Qed.

Lemma dot_scale (k : R) (v w : glm.vec3) : glm.dot (glm.scale k v) w = k * glm.dot v w.
Proof.
  unfold glm.dot, glm.scale; simpl. ring.
Qed.

(** The strafe direction, whatever its scaling, is orthogonal to [front]. *)
Lemma strafe_orthogonal (front up : glm.vec3) (speed : R) :
  glm.dot (glm.scale_r (glm.normalize (glm.cross front up)) speed) front = 0.
Proof.
  unfold glm.normalize. rewrite !dot_scale_r, dot_cross_l. ring.
Qed.

(** C6.  With only W down the position gains [speed * front], with only
    S it loses it, where [speed = 2.5 * deltatime]; at a speed of 1 (a
    frame time of 0.4) the position moves by exactly [front].  With
    only D (resp. A) down the position gains (resp. loses)
    [normalize (cross front up) * speed], and that displacement is
    orthogonal to [front].  Whatever keys are down, the four
    translations are applied one after the other, each with the same
    [front], [up] and [speed]. *)
Theorem keyboard_translation (s : State) (window : GLFWwindow) (deltatime : R) :
  let c := g_pCamera s in
  let speed := 2.5 * deltatime in
  let strafe := glm.scale_r (glm.normalize (glm.cross (Front c) (Up c))) speed in
  let after k dt := Position (g_pCamera (ProcessKeyboardEvents s window (only k) dt)) in
  after GLFW_KEY_W deltatime = glm.add (Position c) (glm.scale speed (Front c)) /\
  after GLFW_KEY_S deltatime = glm.sub (Position c) (glm.scale speed (Front c)) /\
  after GLFW_KEY_W 0.4 = glm.add (Position c) (Front c) /\
  after GLFW_KEY_S 0.4 = glm.sub (Position c) (Front c) /\
  after GLFW_KEY_D deltatime = glm.add (Position c) strafe /\
  after GLFW_KEY_A deltatime = glm.sub (Position c) strafe /\
  glm.dot strafe (Front c) = 0 /\
  glm.dot (glm.sub (after GLFW_KEY_D deltatime) (Position c)) (Front c) = 0 /\
  glm.dot (glm.sub (after GLFW_KEY_A deltatime) (Position c)) (Front c) = 0 /\
  (forall pressed : Key -> bool,
      Position (g_pCamera (ProcessKeyboardEvents s window pressed deltatime))
      = let p := Position c in
        let p := if pressed GLFW_KEY_W then glm.add p (glm.scale speed (Front c)) else p in
        let p := if pressed GLFW_KEY_S then glm.sub p (glm.scale speed (Front c)) else p in
        let p := if pressed GLFW_KEY_A then glm.sub p strafe else p in
        let p := if pressed GLFW_KEY_D then glm.add p strafe else p in
        p).
Proof.
  cbv zeta.
  assert (Hone : 2.5 * 0.4 = 1) by lra.
  unfold ProcessKeyboardEvents, only; simpl.
  rewrite Hone, scale_1.
  repeat (split; [ first [ reflexivity | apply strafe_orthogonal ] | ]).
  split; [ rewrite sub_add_cancel; apply strafe_orthogonal | ].
  split; [ rewrite sub_sub_cancel, dot_scale, strafe_orthogonal; ring | ].
  intros pressed.
  destruct (pressed GLFW_KEY_ESCAPE), (pressed GLFW_KEY_W), (pressed GLFW_KEY_S),
           (pressed GLFW_KEY_A), (pressed GLFW_KEY_D); reflexivity.
Qed.

(** ** C7: uploading the matrices *)

Lemma count_app (p : Effect -> bool) (t u : list Effect) :
  count p (t ++ u) = (count p t + count p u)%nat.
Proof.
  unfold count. rewrite filter_app, length_app. reflexivity.
Qed.

(** C7.  With a null shader manager [PrepareSceneView] returns the state
    it was given: nothing is uploaded, nothing is logged, the camera is
    untouched.  With a shader manager bound, the call appends exactly
    two uploads to the trace, the view matrix under the name "view" and
    then the projection matrix under the name "projection", each once,
    and changes nothing else. *)
Theorem PrepareSceneView_uploads :
  (forall (s : State),
      m_pShaderManager s = None -> PrepareSceneView s = s) /\
  (forall (s : State) (sm : ShaderManager),
      m_pShaderManager s = Some sm ->
      let s' := PrepareSceneView s in
      trace s' = trace s ++ [ setMat4Value sm g_ViewName (GetViewMatrix (g_pCamera s));
                              setMat4Value sm g_ProjectionName (projection_of (g_pCamera s)) ] /\
      count (is_upload_of g_ViewName) (trace s')
      = S (count (is_upload_of g_ViewName) (trace s)) /\
      count (is_upload_of g_ProjectionName) (trace s')
      = S (count (is_upload_of g_ProjectionName) (trace s)) /\
      s' = mkState (g_pCamera s) (gLastX s) (gLastY s) (gFirstMouse s) (gDeltaTime s)
                   (gLastFrame s) (bOrthographicProjection s)
                   (m_pShaderManager s) (m_pWindow s) (trace s')).
Proof.
  split.
  - intros s E. rewrite PrepareSceneView_eq, E. reflexivity.
  - intros s sm E. cbv zeta. rewrite PrepareSceneView_eq, E.
    assert (Ht : trace (emit (emit s (setMat4Value sm g_ViewName (GetViewMatrix (g_pCamera s))))
                             (setMat4Value sm g_ProjectionName (projection_of (g_pCamera s))))
                 = trace s ++ [ setMat4Value sm g_ViewName (GetViewMatrix (g_pCamera s));
                                setMat4Value sm g_ProjectionName (projection_of (g_pCamera s)) ]).
    { simpl. rewrite <- app_assoc. reflexivity. }
    split; [ exact Ht | ].
    rewrite Ht, !count_app.
    split; [ | split ].
    + unfold count; simpl. apply Nat.add_1_r.
    + unfold count; simpl. apply Nat.add_1_r.
    + unfold emit; simpl. rewrite <- app_assoc, E. reflexivity.
Qed.

Lemma PrepareSceneView_uploads_witness :
  (m_pShaderManager (with_shader None) = None /\
   PrepareSceneView (with_shader None) = with_shader None) /\
  (m_pShaderManager (with_shader (Some 7%nat)) = Some 7%nat /\
   trace (PrepareSceneView (with_shader (Some 7%nat)))
   = [ setMat4Value 7%nat "view" (GetViewMatrix (g_pCamera (with_shader (Some 7%nat))));
       setMat4Value 7%nat "projection"
         (projection_of (g_pCamera (with_shader (Some 7%nat)))) ]).
Proof.
  destruct PrepareSceneView_uploads as [Hnull Hbound].
  split.
  - split; [ reflexivity | apply Hnull; reflexivity ].
  - split; [ reflexivity | ].
    destruct (Hbound (with_shader (Some 7%nat)) 7%nat eq_refl) as [Ht _].
    exact Ht.
Defined.

(** ** C8: window creation fails *)

(** C8.  When [glfwCreateWindow] returns null, [CreateDisplayWindow]
    calls it once, writes the diagnostic to [std::cout], shuts GLFW
    down and returns null; the window member and every other variable
    keep their values. *)
Theorem CreateDisplayWindow_failure (s : State) (windowTitle : string) :
  let r := CreateDisplayWindow s windowTitle None in
  fst r = None /\
  trace (snd r) = trace s ++ [ glfwCreateWindow WINDOW_WIDTH WINDOW_HEIGHT windowTitle;
                               cout "Failed to create GLFW window";
                               glfwTerminate ] /\
  count is_glfwCreateWindow (trace (snd r)) = S (count is_glfwCreateWindow (trace s)) /\
  m_pWindow (snd r) = m_pWindow s /\
  snd r = mkState (g_pCamera s) (gLastX s) (gLastY s) (gFirstMouse s) (gDeltaTime s)
                  (gLastFrame s) (bOrthographicProjection s)
                  (m_pShaderManager s) (m_pWindow s) (trace (snd r)).
Proof.
  cbv zeta.
  assert (Ht : trace (snd (CreateDisplayWindow s windowTitle None))
               = trace s ++ [ glfwCreateWindow WINDOW_WIDTH WINDOW_HEIGHT windowTitle;
                              cout "Failed to create GLFW window";
                              glfwTerminate ]).
  { simpl. rewrite <- !app_assoc. reflexivity. }
  split; [ reflexivity | ].
  split; [ exact Ht | ].
  split; [ rewrite Ht, count_app; unfold count; simpl; apply Nat.add_1_r | ].
  split; reflexivity.
Qed.

(** ** C9: the projection matrix *)

Lemma half_fov_range (zoom : R) :
  0 < zoom < 180 -> 0 < glm.radians zoom / 2 < PI / 2.
Proof.
  intros [Hlo Hhi]. unfold glm.radians.
  pose proof PI_RGT_0 as Hpi.
  split; nra.
Qed.

(** C9.  The matrix uploaded under the name "projection" is
    [perspective (radians zoom) (1000 / 800) 0.1 100].  For two cameras
    with zooms [0 < zoom1 < zoom2 < 180] the vertical field of view of
    the second is strictly wider, and both focal-scale terms on the
    diagonal of its projection matrix are strictly smaller. *)
Theorem projection_tracks_zoom :
  (forall (s : State) (sm : ShaderManager),
      m_pShaderManager s = Some sm ->
      trace (PrepareSceneView s)
      = trace s ++
        [ setMat4Value sm "view" (GetViewMatrix (g_pCamera s));
          setMat4Value sm "projection"
            (glm.perspective (glm.radians (Zoom (g_pCamera s))) (1000 / 800) 0.1 100) ]) /\
  (forall (c1 c2 : Camera),
      0 < Zoom c1 -> Zoom c1 < Zoom c2 -> Zoom c2 < 180 ->
      glm.radians (Zoom c1) < glm.radians (Zoom c2) /\
      glm.y4 (glm.col1 (projection_of c2)) < glm.y4 (glm.col1 (projection_of c1)) /\
      glm.x4 (glm.col0 (projection_of c2)) < glm.x4 (glm.col0 (projection_of c1))).
Proof.
  split.
  - intros s sm E. rewrite PrepareSceneView_eq, E. simpl trace.
    rewrite <- app_assoc. reflexivity.
  - intros c1 c2 H0 H12 H180.
    pose proof PI_RGT_0 as Hpi.
    destruct (half_fov_range (Zoom c1)) as [Ha1 Hb1]; [ lra | ].
    destruct (half_fov_range (Zoom c2)) as [Ha2 Hb2]; [ lra | ].
    assert (Hrad : glm.radians (Zoom c1) < glm.radians (Zoom c2))
      by (unfold glm.radians; nra).
    assert (Ht1 : 0 < tan (glm.radians (Zoom c1) / 2)) by (apply tan_gt_0; lra).
    assert (Htan : tan (glm.radians (Zoom c1) / 2) < tan (glm.radians (Zoom c2) / 2))
      by (apply tan_increasing; lra).
    assert (Haspect : IZR WINDOW_WIDTH / IZR WINDOW_HEIGHT = 1.25)
      by (unfold WINDOW_WIDTH, WINDOW_HEIGHT; lra).
    split; [ exact Hrad | ].
    unfold projection_of, glm.perspective; simpl.
    rewrite Haspect.
    split.
    + unfold Rdiv. rewrite !Rmult_1_l.
      apply Rinv_0_lt_contravar; assumption.
    + unfold Rdiv at 1 3. rewrite !Rmult_1_l.
      apply Rinv_0_lt_contravar; nra.
Qed.

Lemma projection_tracks_zoom_witness :
  let c1 := g_pCamera (with_shader (Some 7%nat)) in
  let c2 := set_Zoom c1 100 in
  (m_pShaderManager (with_shader (Some 7%nat)) = Some 7%nat /\
   trace (PrepareSceneView (with_shader (Some 7%nat)))
   = [ setMat4Value 7%nat "view" (GetViewMatrix c1);
       setMat4Value 7%nat "projection"
         (glm.perspective (glm.radians 80) (1000 / 800) 0.1 100) ]) /\
  ((0 < Zoom c1 /\ Zoom c1 < Zoom c2 /\ Zoom c2 < 180) /\
   glm.radians 80 < glm.radians 100 /\
   glm.y4 (glm.col1 (projection_of c2)) < glm.y4 (glm.col1 (projection_of c1)) /\
   glm.x4 (glm.col0 (projection_of c2)) < glm.x4 (glm.col0 (projection_of c1))).
Proof.
  cbv zeta.
  destruct projection_tracks_zoom as [Hupload Hmono].
  assert (H0 : 0 < Zoom (g_pCamera (with_shader (Some 7%nat)))) by (simpl; lra).
  assert (H12 : Zoom (g_pCamera (with_shader (Some 7%nat))) < Zoom (set_Zoom (g_pCamera (with_shader (Some 7%nat))) 100))
    by (simpl; lra).
  assert (H180 : Zoom (set_Zoom (g_pCamera (with_shader (Some 7%nat))) 100) < 180) by (simpl; lra).
  split.
  - split; [ reflexivity | ].
    exact (Hupload (with_shader (Some 7%nat)) 7%nat eq_refl).
  - split; [ split; [ exact H0 | split; [ exact H12 | exact H180 ] ] | ].
    exact (Hmono (g_pCamera (with_shader (Some 7%nat))) (set_Zoom (g_pCamera (with_shader (Some 7%nat))) 100) H0 H12 H180).
Defined.

(** ** C10: what each operation leaves alone *)

(** C10.  The pointer callback leaves position, up and zoom (and every
    variable other than the camera angles, the front vector and the
    pointer-tracking variables) as they were; keyboard processing leaves
    yaw, pitch, front, up and zoom (and the pointer-tracking variables)
    as they were; and after any run of operations on a constructed
    controller the zoom is still the constructor's 80. *)
Theorem operations_touch_only_their_slice :
  (forall (s : State) (xp yp : R),
      let s' := Mouse_Position_Callback s xp yp in
      Position (g_pCamera s') = Position (g_pCamera s) /\
      Up (g_pCamera s') = Up (g_pCamera s) /\
      Zoom (g_pCamera s') = Zoom (g_pCamera s) /\
      gDeltaTime s' = gDeltaTime s /\
      gLastFrame s' = gLastFrame s /\
      bOrthographicProjection s' = bOrthographicProjection s /\
      m_pShaderManager s' = m_pShaderManager s /\
      m_pWindow s' = m_pWindow s /\
      trace s' = trace s) /\
  (forall (s : State) (window : GLFWwindow) (pressed : Key -> bool) (deltatime : R),
      let s' := ProcessKeyboardEvents s window pressed deltatime in
      Front (g_pCamera s') = Front (g_pCamera s) /\
      Up (g_pCamera s') = Up (g_pCamera s) /\
      Yaw (g_pCamera s') = Yaw (g_pCamera s) /\
      Pitch (g_pCamera s') = Pitch (g_pCamera s) /\
      Zoom (g_pCamera s') = Zoom (g_pCamera s) /\
      gLastX s' = gLastX s /\
      gLastY s' = gLastY s /\
      gFirstMouse s' = gFirstMouse s /\
      m_pShaderManager s' = m_pShaderManager s /\
      m_pWindow s' = m_pWindow s) /\
  (forall (s : State) (ops : list Op),
      Zoom (g_pCamera (run s ops)) = Zoom (g_pCamera s)) /\
  (forall (new_Camera : Camera) (sm : option ShaderManager) (ops : list Op),
      Zoom (g_pCamera (run (ViewManager new_Camera sm) ops)) = 80).
Proof.
  split; [ | split; [ | split ] ].
  - exact Mouse_Position_Callback_frame.
  - exact ProcessKeyboardEvents_frame.
  - intros s ops. apply run_Zoom.
  - intros c sm ops. rewrite run_Zoom. reflexivity.
Qed.

(** * Further properties of the operations *)

(** ** Runs *)

Lemma run_cons (s : State) (o : Op) (ops : list Op) :
  run s (o :: ops) = run (step s o) ops.
Proof.
  reflexivity.
Qed.

(** An invariant that every operation keeps holds after every run. *)
Lemma run_invariant (P : State -> Prop) :
  (forall s o, P s -> P (step s o)) ->
  forall ops s, P s -> P (run s ops).
Proof.
  intros Hstep ops. induction ops as [ | o ops IH ]; intros s Hs.
  - exact Hs.
  - rewrite run_cons. apply IH, Hstep, Hs.
Qed.

Lemma step_camera_unless_input (s : State) (o : Op) :
  match o with
  | OpMouse _ _ | OpKeyboard _ _ _ => True
  | _ => g_pCamera (step s o) = g_pCamera s
  end.
Proof.
  destruct o; cbn [step]; trivial.
  - apply CreateDisplayWindow_camera.
  - apply PrepareSceneView_camera.
Qed.

(** ** The pitch stays within its bounds *)

Lemma Mouse_Position_Callback_Pitch_bounds (s : State) (xp yp : R) :
  - 89 <= Pitch (g_pCamera (Mouse_Position_Callback s xp yp)) <= 89.
Proof.
  rewrite Mouse_Position_Callback_camera. cbv zeta. simpl Pitch.
  apply clamp_Pitch_bounds.
Qed.

Lemma step_Pitch_bounds (s : State) (o : Op) :
  - 89 <= Pitch (g_pCamera s) <= 89 ->
  - 89 <= Pitch (g_pCamera (step s o)) <= 89.
Proof.
  intros H. destruct o; cbn [step].
  - now rewrite CreateDisplayWindow_camera.
  - apply Mouse_Position_Callback_Pitch_bounds.
  - destruct (ProcessKeyboardEvents_frame s window pressed deltatime)
      as (_ & _ & _ & Hp & _).
    rewrite Hp. exact H.
  - now rewrite PrepareSceneView_camera.
Qed.

(** X1.  Once a pointer event has been handled, the stored pitch lies
    in [-89, 89], and it stays there through every later run of
    operations, whatever the pitch was before. *)
Theorem pitch_bounded_after_pointer_event
    (s : State) (xp yp : R) (ops : list Op) :
  - 89 <= Pitch (g_pCamera (run (Mouse_Position_Callback s xp yp) ops)) <= 89.
Proof.
  apply (run_invariant (fun s => - 89 <= Pitch (g_pCamera s) <= 89)).
  - intros s0 o. apply step_Pitch_bounds.
  - apply Mouse_Position_Callback_Pitch_bounds.
Qed.

(** ** The first-sample flag *)

Lemma step_gFirstMouse (s : State) (o : Op) :
  gFirstMouse (step s o) = gFirstMouse s && negb (is_OpMouse o).
Proof.
  destruct o; cbn [step is_OpMouse negb].
  - unfold CreateDisplayWindow. destruct created; simpl; now rewrite andb_true_r.
  - destruct (Mouse_Position_Callback_tracking s xMousePos yMousePos) as (_ & _ & E).
    rewrite E. now rewrite andb_false_r.
  - destruct (ProcessKeyboardEvents_frame s window pressed deltatime)
      as (_ & _ & _ & _ & _ & _ & _ & E & _).
    rewrite E. now rewrite andb_true_r.
  - rewrite PrepareSceneView_eq. destruct (m_pShaderManager s); simpl;
      now rewrite andb_true_r.
Qed.

(** X2.  The first-sample flag is set after a run exactly when it was
    set before and the run handled no pointer event: the first pointer
    event clears it and no operation sets it again. *)
Theorem first_sample_flag_never_rearmed (s : State) (ops : list Op) :
  gFirstMouse (run s ops)
  = gFirstMouse s && forallb (fun o => negb (is_OpMouse o)) ops.
Proof.
  revert s. induction ops as [ | o ops IH ]; intros s.
  - simpl. now rewrite andb_true_r.
  - rewrite run_cons, IH, step_gFirstMouse. simpl.
    now rewrite andb_assoc.
Qed.

(** ** The stored window handle *)

Lemma step_m_pWindow (s : State) (o : Op) :
  m_pWindow (step s o)
  = match o with
    | OpCreateDisplayWindow _ (Some h) => Some h
    | _ => m_pWindow s
    end.
Proof.
  destruct o; cbn [step].
  - unfold CreateDisplayWindow. destruct created; reflexivity.
  - apply (Mouse_Position_Callback_frame s xMousePos yMousePos).
  - apply (ProcessKeyboardEvents_frame s window pressed deltatime).
  - rewrite PrepareSceneView_eq. destruct (m_pShaderManager s); reflexivity.
Qed.

(** X3.  After any run the window member holds the handle of the last
    window creation that succeeded, or its old value when none did: a
    failed creation does not clear it, although it shuts GLFW down, and
    no other operation writes it. *)
Theorem window_member_is_last_created_window (s : State) (ops : list Op) :
  m_pWindow (run s ops) = last_window (m_pWindow s) ops.
Proof.
  unfold last_window. revert s.
  induction ops as [ | o ops IH ]; intros s.
  - reflexivity.
  - rewrite run_cons, IH, step_m_pWindow. reflexivity.
Qed.

(** ** What each operation appends to the trace *)

Lemma ProcessKeyboardEvents_trace
    (s : State) (window : GLFWwindow) (pressed : Key -> bool) (deltatime : R) :
  trace (ProcessKeyboardEvents s window pressed deltatime)
  = trace s ++ (if pressed GLFW_KEY_ESCAPE
                then [ glfwSetWindowShouldClose window true ]
                else []).
Proof.
  unfold ProcessKeyboardEvents.
  destruct (pressed GLFW_KEY_ESCAPE); simpl.
  - reflexivity.
  - now rewrite app_nil_r.
Qed.

Lemma step_trace (s : State) (o : Op) :
  trace (step s o)
  = trace s ++
    match o with
    | OpCreateDisplayWindow t None =>
        [ glfwCreateWindow WINDOW_WIDTH WINDOW_HEIGHT t;
          cout "Failed to create GLFW window";
          glfwTerminate ]
    | OpCreateDisplayWindow t (Some w) =>
        [ glfwCreateWindow WINDOW_WIDTH WINDOW_HEIGHT t;
          glfwMakeContextCurrent w;
          glfwSetCursorPosCallback w;
          glEnable_GL_BLEND;
          glBlendFunc_SRC_ALPHA_ONE_MINUS_SRC_ALPHA ]
    | OpMouse _ _ => []
    | OpKeyboard w pressed _ =>
        if pressed GLFW_KEY_ESCAPE then [ glfwSetWindowShouldClose w true ] else []
    | OpPrepareSceneView =>
        match m_pShaderManager s with
        | Some sm =>
            [ setMat4Value sm g_ViewName (GetViewMatrix (g_pCamera s));
              setMat4Value sm g_ProjectionName (projection_of (g_pCamera s)) ]
        | None => []
        end
    end.
Proof.
  destruct o; cbn [step].
  - unfold CreateDisplayWindow. destruct created; simpl;
      rewrite <- !app_assoc; reflexivity.
  - destruct (Mouse_Position_Callback_frame s xMousePos yMousePos)
      as (_ & _ & _ & _ & _ & _ & _ & _ & Ht).
    rewrite Ht. now rewrite app_nil_r.
  - apply ProcessKeyboardEvents_trace.
  - rewrite PrepareSceneView_eq. destruct (m_pShaderManager s); simpl.
    + rewrite <- app_assoc. reflexivity.
    + now rewrite app_nil_r.
Qed.

Lemma step_m_pShaderManager (s : State) (o : Op) :
  m_pShaderManager (step s o) = m_pShaderManager s.
Proof.
  destruct o; cbn [step].
  - unfold CreateDisplayWindow. destruct created; reflexivity.
  - apply (Mouse_Position_Callback_frame s xMousePos yMousePos).
  - apply (ProcessKeyboardEvents_frame s window pressed deltatime).
  - rewrite PrepareSceneView_eq. destruct (m_pShaderManager s) eqn:E; simpl; exact E.
Qed.

(** ** Uploads over a run *)

Lemma step_uploads (s : State) (o : Op) :
  let n := if is_OpPrepareSceneView o
           then match m_pShaderManager s with Some _ => 1%nat | None => 0%nat end
           else 0%nat in
  count (is_upload_of g_ViewName) (trace (step s o))
  = (count (is_upload_of g_ViewName) (trace s) + n)%nat /\
  count (is_upload_of g_ProjectionName) (trace (step s o))
  = (count (is_upload_of g_ProjectionName) (trace s) + n)%nat /\
  count is_setMat4Value (trace (step s o))
  = (count is_setMat4Value (trace s) + 2 * n)%nat.
Proof.
  cbv zeta. rewrite step_trace, !count_app.
  destruct o as [t [w | ] | xp yp | w pressed dt | ]; cbn [is_OpPrepareSceneView].
  1-3: unfold count; simpl; repeat split; reflexivity.
  - destruct (pressed GLFW_KEY_ESCAPE); unfold count; simpl; repeat split; reflexivity.
  - destruct (m_pShaderManager s); unfold count; simpl; repeat split; reflexivity.
Qed.

(** X4.  No operation rebinds the shader manager, and over any run each
    [PrepareSceneView] contributes one "view" and one "projection"
    upload when a shader manager is bound and none when it is null, so
    with a null shader manager no run uploads anything. *)
Theorem uploads_over_a_run (s : State) (ops : list Op) :
  let bound := match m_pShaderManager s with Some _ => 1%nat | None => 0%nat end in
  let n := (List.length (filter is_OpPrepareSceneView ops) * bound)%nat in
  m_pShaderManager (run s ops) = m_pShaderManager s /\
  count (is_upload_of g_ViewName) (trace (run s ops))
  = (count (is_upload_of g_ViewName) (trace s) + n)%nat /\
  count (is_upload_of g_ProjectionName) (trace (run s ops))
  = (count (is_upload_of g_ProjectionName) (trace s) + n)%nat /\
  count is_setMat4Value (trace (run s ops))
  = (count is_setMat4Value (trace s) + 2 * n)%nat.
Proof.
  cbv zeta. revert s. induction ops as [ | o ops IH ]; intros s.
  - simpl. rewrite !Nat.add_0_r. repeat split; reflexivity.
  - rewrite run_cons.
    destruct (IH (step s o)) as (Hsm & Hv & Hp & Ha).
    destruct (step_uploads s o) as (Hv1 & Hp1 & Ha1).
    rewrite step_m_pShaderManager in Hsm, Hv, Hp, Ha.
    rewrite Hsm, Hv, Hp, Ha, Hv1, Hp1, Ha1.
    cbn [filter].
    destruct (is_OpPrepareSceneView o), (m_pShaderManager s);
      cbn [List.length]; repeat split; lia.
Qed.

(** ** Window creation over a run *)

Lemma step_window_accounting (s : State) (o : Op) :
  let ok t :=
    count is_glfwCreateWindow t
    = (count is_glfwMakeContextCurrent t + count is_glfwTerminate t)%nat /\
    count is_cout t = count is_glfwTerminate t /\
    count is_glfwSetCursorPosCallback t = count is_glfwMakeContextCurrent t in
  ok (trace s) -> ok (trace (step s o)).
Proof.
  cbv zeta. intros (H1 & H2 & H3).
  rewrite step_trace, !count_app.
  destruct o as [t [w | ] | xp yp | w pressed dt | ].
  1-3: unfold count in *; simpl; repeat split; lia.
  - destruct (pressed GLFW_KEY_ESCAPE); unfold count in *; simpl; repeat split; lia.
  - destruct (m_pShaderManager s); unfold count in *; simpl; repeat split; lia.
Qed.

(** X5.  In the trace of any run from the constructor, every call of
    [glfwCreateWindow] is answered either by making the new context
    current or by shutting GLFW down; the diagnostic is written exactly
    as often as GLFW is shut down; and the pointer callback is
    registered exactly once per context made current. *)
Theorem window_creation_accounting
    (new_Camera : Camera) (sm : option ShaderManager) (ops : list Op) :
  let t := trace (run (ViewManager new_Camera sm) ops) in
  count is_glfwCreateWindow t
  = (count is_glfwMakeContextCurrent t + count is_glfwTerminate t)%nat /\
  count is_cout t = count is_glfwTerminate t /\
  count is_glfwSetCursorPosCallback t = count is_glfwMakeContextCurrent t.
Proof.
  cbv zeta.
  apply (run_invariant
           (fun s =>
              count is_glfwCreateWindow (trace s)
              = (count is_glfwMakeContextCurrent (trace s)
                 + count is_glfwTerminate (trace s))%nat /\
              count is_cout (trace s) = count is_glfwTerminate (trace s) /\
              count is_glfwSetCursorPosCallback (trace s)
              = count is_glfwMakeContextCurrent (trace s))).
  - intros s o. apply (step_window_accounting s o).
  - repeat split; reflexivity.
Qed.

(** ** Yaw follows the pointer *)

Lemma step_yaw_pointer (s : State) (o : Op) :
  gFirstMouse s = false ->
  gFirstMouse (step s o) = false /\
  Yaw (g_pCamera (step s o)) - gLastX (step s o) * 0.1
  = Yaw (g_pCamera s) - gLastX s * 0.1.
Proof.
  intros E. destruct o; cbn [step].
  - unfold CreateDisplayWindow. destruct created; split; [ exact E | reflexivity | exact E | reflexivity ].
  - destruct (Mouse_Position_Callback_tracking s xMousePos yMousePos) as (Hlx & _ & E').
    destruct (offsets_later s xMousePos yMousePos E) as [Hx _].
    split; [ exact E' | ].
    rewrite Mouse_Position_Callback_Yaw, Hx, Hlx. unfold sensitivity. lra.
  - destruct (ProcessKeyboardEvents_frame s window pressed deltatime)
      as (_ & _ & Hyaw & _ & _ & Hlx & _ & E' & _).
    rewrite Hyaw, Hlx, E'. split; [ exact E | reflexivity ].
  - rewrite PrepareSceneView_eq.
    destruct (m_pShaderManager s); split; [ exact E | reflexivity | exact E | reflexivity ].
Qed.

(** X6.  After the first pointer event the yaw is a function of the
    pointer's x position alone: over any run, with any operations in
    between, the yaw has changed by exactly 0.1 times the difference
    between the last and the first stored x position, whatever path the
    pointer took. *)
Theorem yaw_follows_pointer (s : State) (ops : list Op) :
  gFirstMouse s = false ->
  Yaw (g_pCamera (run s ops))
  = Yaw (g_pCamera s) + (gLastX (run s ops) - gLastX s) * 0.1.
Proof.
  intros E.
  assert (H : gFirstMouse (run s ops) = false /\
              Yaw (g_pCamera (run s ops)) - gLastX (run s ops) * 0.1
              = Yaw (g_pCamera s) - gLastX s * 0.1).
  { apply (run_invariant
             (fun s' => gFirstMouse s' = false /\
                        Yaw (g_pCamera s') - gLastX s' * 0.1
                        = Yaw (g_pCamera s) - gLastX s * 0.1)).
    - intros s0 o [E0 H0].
      destruct (step_yaw_pointer s0 o E0) as [E1 H1].
      split; [ exact E1 | ]. rewrite H1. exact H0.
    - split; [ exact E | reflexivity ]. }
  destruct H as [_ H]. lra.
Qed.

Lemma yaw_follows_pointer_witness :
  let s := seeded 400 in
  let ops := [ OpMouse 510 395; OpKeyboard 1%nat (only GLFW_KEY_W) 0.4;
               OpPrepareSceneView; OpMouse 450 300 ] in
  gFirstMouse s = false /\
  Yaw (g_pCamera (run s ops))
  = Yaw (g_pCamera s) + (gLastX (run s ops) - gLastX s) * 0.1.
Proof.
  cbv zeta.
  destruct (seeded_facts 400) as (E & _).
  split; [ exact E | ].
  apply (yaw_follows_pointer (seeded 400)). exact E.
Defined.

(** ** A pointer event at the stored position *)

Lemma Mouse_Position_Callback_fixpoint (s : State) :
  gFirstMouse s = false ->
  oriented (g_pCamera s) ->
  Mouse_Position_Callback s (gLastX s) (gLastY s) = s.
Proof.
  destruct s as [c lx ly fm dt lf op sm w t].
  destruct c as [pos f up yaw pitch zoom].
  unfold oriented; simpl. intros -> [Hf Hp].
  unfold Mouse_Position_Callback, seed_first_mouse; simpl.
  replace (yaw + (lx - lx) * sensitivity) with yaw by lra.
  replace (pitch + (ly - ly) * sensitivity) with pitch by lra.
  rewrite clamp_Pitch_within by (simpl; exact Hp).
  rewrite normalize_front_of.
  unfold set_g_pCamera, set_gLastY, set_gLastX, set_Front, set_Pitch, set_Yaw.
  cbn -[front_of].
  rewrite <- Hf. reflexivity.
Qed.

Lemma oriented_after_pointer_event (s : State) (xp yp : R) :
  oriented (g_pCamera (Mouse_Position_Callback s xp yp)).
Proof.
  split.
  - rewrite Mouse_Position_Callback_Front at 1. apply normalize_front_of.
  - apply Mouse_Position_Callback_Pitch_bounds.
Qed.

(** X7.  Handling the same pointer position twice is the same as
    handling it once: the second event finds zero offsets, an in-bounds
    pitch and a front vector that already matches the angles, and
    leaves every variable as it is. *)
Theorem pointer_event_idempotent (s : State) (xp yp : R) :
  Mouse_Position_Callback (Mouse_Position_Callback s xp yp) xp yp
  = Mouse_Position_Callback s xp yp.
Proof.
  destruct (Mouse_Position_Callback_tracking s xp yp) as (Hlx & Hly & E).
  pose proof (Mouse_Position_Callback_fixpoint (Mouse_Position_Callback s xp yp) E
                (oriented_after_pointer_event s xp yp)) as H.
  rewrite Hlx, Hly in H. exact H.
Qed.

(** ** The camera never looks straight up or down *)

Lemma radians_89_range (p : R) :
  - 89 <= p <= 89 ->
  - (PI / 2) < - glm.radians 89 /\
  - glm.radians 89 <= glm.radians p <= glm.radians 89 /\
  glm.radians 89 < PI / 2.
Proof.
  intros H. unfold glm.radians. pose proof PI_RGT_0 as Hpi.
  repeat split; nra.
Qed.

Lemma step_oriented (s : State) (o : Op) :
  oriented (g_pCamera s) -> oriented (g_pCamera (step s o)).
Proof.
  intros H. destruct o; cbn [step].
  - now rewrite CreateDisplayWindow_camera.
  - apply oriented_after_pointer_event.
  - destruct (ProcessKeyboardEvents_frame s window pressed deltatime)
      as (Hf & _ & Hyaw & Hp & _).
    destruct H as [Hfront Hb]. unfold oriented, front_of.
    rewrite Hf, Hyaw, Hp. split; [ exact Hfront | exact Hb ].
  - now rewrite PrepareSceneView_camera.
Qed.

Lemma oriented_horizontal (c : Camera) :
  oriented c ->
  glm.x (Front c) * glm.x (Front c) + glm.z (Front c) * glm.z (Front c)
  = cos (glm.radians (Pitch c)) * cos (glm.radians (Pitch c)) /\
  0 < cos (glm.radians (Pitch c)).
Proof.
  intros [Hf Hb].
  destruct (radians_89_range (Pitch c) Hb) as (Hlo & [Hl Hh] & Hhi).
  split.
  - rewrite Hf. unfold front_of; simpl.
    pose proof (sin2_cos2 (glm.radians (Yaw c))) as Hy. unfold Rsqr in Hy. nra.
  - apply cos_gt_0; lra.
Qed.

(** X8.  After a pointer event, and through every later run, the front
    vector is never vertical: its y component lies between
    [- sin (radians 89)] and [sin (radians 89)], which is below 1, and
    its horizontal part has squared length [cos^2 pitch > 0]. *)
Theorem front_never_vertical (s : State) (xp yp : R) (ops : list Op) :
  let c := g_pCamera (run (Mouse_Position_Callback s xp yp) ops) in
  - sin (glm.radians 89) <= glm.y (Front c) <= sin (glm.radians 89) /\
  sin (glm.radians 89) < 1 /\
  glm.x (Front c) * glm.x (Front c) + glm.z (Front c) * glm.z (Front c)
  = cos (glm.radians (Pitch c)) * cos (glm.radians (Pitch c)) /\
  0 < glm.x (Front c) * glm.x (Front c) + glm.z (Front c) * glm.z (Front c).
Proof.
  cbv zeta.
  assert (Ho : oriented (g_pCamera (run (Mouse_Position_Callback s xp yp) ops))).
  { apply (run_invariant (fun s' => oriented (g_pCamera s'))).
    - intros s0 o. apply step_oriented.
    - apply oriented_after_pointer_event. }
  set (c := g_pCamera (run (Mouse_Position_Callback s xp yp) ops)) in *.
  destruct (oriented_horizontal c Ho) as [Hh Hcos].
  destruct Ho as [Hf Hb].
  destruct (radians_89_range (Pitch c) Hb) as (Hlo & [Hl Hu] & Hhi).
  assert (Hy : glm.y (Front c) = sin (glm.radians (Pitch c)))
    by (rewrite Hf; reflexivity).
  split; [ | split; [ | split ] ].
  - rewrite Hy, <- sin_neg. split; apply sin_incr_1; lra.
  - rewrite <- sin_PI2. apply sin_increasing_1; lra.
  - exact Hh.
  - rewrite Hh. nra.
Qed.

(** ** A full turn *)

Lemma front_of_full_turn (c1 c2 : Camera) :
  Yaw c1 = Yaw c2 + 360 -> Pitch c1 = Pitch c2 -> front_of c1 = front_of c2.
Proof.
  intros Hy Hp. unfold front_of. rewrite Hy, Hp.
  replace (glm.radians (Yaw c2 + 360)) with (glm.radians (Yaw c2) + 2 * INR 1 * PI)
    by (unfold glm.radians; simpl; field).
  rewrite cos_period, sin_period. reflexivity.
Qed.

(** X9.  The stored yaw is not wrapped, yet the direction is periodic:
    moving the pointer 3600 pixels further in x adds 360 degrees to the
    stored yaw and gives the same pitch and the same front vector. *)
Theorem full_turn_same_front (s : State) (yp : R) :
  gFirstMouse s = false ->
  let a := g_pCamera (Mouse_Position_Callback s (gLastX s + 3600) yp) in
  let b := g_pCamera (Mouse_Position_Callback s (gLastX s) yp) in
  Yaw a = Yaw b + 360 /\ Pitch a = Pitch b /\ Front a = Front b.
Proof.
  intros E. cbv zeta.
  destruct (offsets_later s (gLastX s + 3600) yp E) as [Hxa Hya].
  destruct (offsets_later s (gLastX s) yp E) as [Hxb Hyb].
  assert (Hyaw : Yaw (g_pCamera (Mouse_Position_Callback s (gLastX s + 3600) yp))
                 = Yaw (g_pCamera (Mouse_Position_Callback s (gLastX s) yp)) + 360).
  { rewrite !Mouse_Position_Callback_Yaw, Hxa, Hxb. unfold sensitivity. lra. }
  assert (Hpitch : Pitch (g_pCamera (Mouse_Position_Callback s (gLastX s + 3600) yp))
                   = Pitch (g_pCamera (Mouse_Position_Callback s (gLastX s) yp))).
  { rewrite !Mouse_Position_Callback_Pitch, Hya, Hyb. reflexivity. }
  split; [ exact Hyaw | split; [ exact Hpitch | ] ].
  rewrite (Mouse_Position_Callback_Front s (gLastX s + 3600) yp).
  rewrite (Mouse_Position_Callback_Front s (gLastX s) yp).
  f_equal. apply front_of_full_turn; assumption.
Qed.

Lemma full_turn_same_front_witness :
  let s := seeded 400 in
  let a := g_pCamera (Mouse_Position_Callback s (gLastX s + 3600) 395) in
  let b := g_pCamera (Mouse_Position_Callback s (gLastX s) 395) in
  gFirstMouse s = false /\
  (Yaw a = Yaw b + 360 /\ Pitch a = Pitch b /\ Front a = Front b).
Proof.
  cbv zeta.
  destruct (seeded_facts 400) as (E & _).
  split; [ exact E | ].
  apply (full_turn_same_front (seeded 400) 395). exact E.
Defined.

(** ** Leaving the pitch limit *)

(** X10.  The clamp does not remember an overshoot: when an event has
    pushed the pitch to the upper limit, a following event that moves
    the pointer down by [d] pixels, [0 <= d <= 1780], lowers the pitch
    from 89 by exactly [0.1 * d], however far beyond the limit the first
    event went. *)
Theorem pitch_leaves_limit_at_once (s : State) (x1 y1 x2 y2 : R) :
  Pitch (g_pCamera s) + yoffset s x1 y1 * sensitivity > 89 ->
  0 <= y2 - y1 <= 1780 ->
  let s1 := Mouse_Position_Callback s x1 y1 in
  let s2 := Mouse_Position_Callback s1 x2 y2 in
  Pitch (g_pCamera s1) = 89 /\
  Pitch (g_pCamera s2) = 89 - (y2 - y1) * 0.1.
Proof.
  intros Hacc Hd. cbv zeta.
  destruct (Mouse_Position_Callback_tracking s x1 y1) as (_ & Hly & E).
  assert (H1 : Pitch (g_pCamera (Mouse_Position_Callback s x1 y1)) = 89).
  { rewrite Mouse_Position_Callback_Pitch.
    rewrite Rmin_left by lra. rewrite Rmax_right by lra. reflexivity. }
  split; [ exact H1 | ].
  destruct (offsets_later (Mouse_Position_Callback s x1 y1) x2 y2 E) as [_ Hy].
  rewrite Mouse_Position_Callback_Pitch, Hy, H1, Hly. unfold sensitivity.
  rewrite Rmax_Rmin_within by lra. lra.
Qed.

Lemma pitch_leaves_limit_at_once_witness :
  let s := seeded 1000 in
  (Pitch (g_pCamera s) + yoffset s 500 0 * sensitivity > 89 /\
   0 <= 10 - 0 <= 1780) /\
  Pitch (g_pCamera (Mouse_Position_Callback s 500 0)) = 89 /\
  Pitch (g_pCamera (Mouse_Position_Callback (Mouse_Position_Callback s 500 0) 500 10))
  = 89 - (10 - 0) * 0.1.
Proof.
  cbv zeta.
  assert (Hacc : Pitch (g_pCamera (seeded 1000))
                 + yoffset (seeded 1000) 500 0 * sensitivity > 89).
  { destruct (seeded_facts 1000) as (E & _ & Hly & _ & Hp & _).
    destruct (offsets_later (seeded 1000) 500 0 E) as [_ Hy].
    rewrite Hp, Hy, Hly. unfold sensitivity. lra. }
  assert (Hd : 0 <= 10 - 0 <= 1780) by lra.
  split; [ split; [ exact Hacc | exact Hd ] | ].
  apply (pitch_leaves_limit_at_once (seeded 1000) 500 0 500 10 Hacc Hd).
Defined.

(** ** Keyboard processing as one update of the position *)

Lemma ProcessKeyboardEvents_camera
    (s : State) (window : GLFWwindow) (pressed : Key -> bool) (deltatime : R) :
  let c := g_pCamera s in
  let speed := 2.5 * deltatime in
  let strafe := glm.scale_r (glm.normalize (glm.cross (Front c) (Up c))) speed in
  g_pCamera (ProcessKeyboardEvents s window pressed deltatime)
  = set_Position c
      (let p := Position c in
       let p := if pressed GLFW_KEY_W then glm.add p (glm.scale speed (Front c)) else p in
       let p := if pressed GLFW_KEY_S then glm.sub p (glm.scale speed (Front c)) else p in
       let p := if pressed GLFW_KEY_A then glm.sub p strafe else p in
       let p := if pressed GLFW_KEY_D then glm.add p strafe else p in
       p).
Proof.
  destruct s as [c lx ly fm dt lf op sm w t].
  destruct c as [pos f up yaw pitch zoom].
  unfold ProcessKeyboardEvents.
  destruct (pressed GLFW_KEY_ESCAPE), (pressed GLFW_KEY_W), (pressed GLFW_KEY_S),
           (pressed GLFW_KEY_A), (pressed GLFW_KEY_D); reflexivity.
Qed.

(** Componentwise arithmetic on vectors, with [n] and [f] left abstract. *)
Ltac vec3_arith :=
  apply vec3_eq;
  cbn [glm.x glm.y glm.z glm.add glm.sub glm.scale glm.scale_r];
  lra.

(** X11.  Movement is proportional to the frame time: processing the
    same keys for a frame of [dt1] and then for a frame of [dt2] leaves
    the camera where one frame of [dt1 + dt2] leaves it, whatever keys
    are down. *)
Theorem keyboard_time_additive
    (s : State) (window : GLFWwindow) (pressed : Key -> bool) (dt1 dt2 : R) :
  g_pCamera (ProcessKeyboardEvents
               (ProcessKeyboardEvents s window pressed dt1) window pressed dt2)
  = g_pCamera (ProcessKeyboardEvents s window pressed (dt1 + dt2)).
Proof.
  rewrite !ProcessKeyboardEvents_camera. cbv zeta.
  unfold set_Position. cbn [Position Front Up Yaw Pitch Zoom].
  set (n := glm.normalize (glm.cross (Front (g_pCamera s)) (Up (g_pCamera s)))).
  set (f := Front (g_pCamera s)).
  f_equal.
  destruct (pressed GLFW_KEY_W), (pressed GLFW_KEY_S),
           (pressed GLFW_KEY_A), (pressed GLFW_KEY_D); vec3_arith.
Qed.

(** X12.  Opposite keys cancel: when W and S are both down or both up,
    and likewise A and D, keyboard processing leaves the camera where it
    was. *)
Theorem opposite_keys_cancel
    (s : State) (window : GLFWwindow) (pressed : Key -> bool) (deltatime : R) :
  pressed GLFW_KEY_W = pressed GLFW_KEY_S ->
  pressed GLFW_KEY_A = pressed GLFW_KEY_D ->
  g_pCamera (ProcessKeyboardEvents s window pressed deltatime) = g_pCamera s.
Proof.
  intros Hws Had.
  rewrite ProcessKeyboardEvents_camera. cbv zeta. rewrite Hws, Had.
  set (n := glm.normalize (glm.cross (Front (g_pCamera s)) (Up (g_pCamera s)))).
  set (f := Front (g_pCamera s)).
  destruct (g_pCamera s) as [pos f0 up yaw pitch zoom].
  unfold set_Position. cbn [Position Front Up Yaw Pitch Zoom].
  f_equal.
  destruct (pressed GLFW_KEY_S), (pressed GLFW_KEY_D); vec3_arith.
Qed.

Lemma opposite_keys_cancel_witness :
  let pressed := fun k => match k with GLFW_KEY_W | GLFW_KEY_S => true | _ => false end in
  (pressed GLFW_KEY_W = pressed GLFW_KEY_S /\ pressed GLFW_KEY_A = pressed GLFW_KEY_D) /\
  g_pCamera (ProcessKeyboardEvents (seeded 400) 1%nat pressed 0.4)
  = g_pCamera (seeded 400).
Proof.
  cbv zeta.
  split; [ split; reflexivity | ].
  apply (opposite_keys_cancel (seeded 400) 1%nat); reflexivity.
Defined.

(** X13.  The escape key does not cut keyboard processing short: the
    call appends one [glfwSetWindowShouldClose (window, true)] to the
    trace when escape is down and nothing otherwise, and it moves the
    camera exactly as the same poll with escape up does. *)
Theorem escape_requests_close_and_still_moves
    (s : State) (window : GLFWwindow) (pressed : Key -> bool) (deltatime : R) :
  trace (ProcessKeyboardEvents s window pressed deltatime)
  = trace s ++ (if pressed GLFW_KEY_ESCAPE
                then [ glfwSetWindowShouldClose window true ]
                else []) /\
  g_pCamera (ProcessKeyboardEvents s window pressed deltatime)
  = g_pCamera (ProcessKeyboardEvents s window (without_escape pressed) deltatime).
Proof.
  split.
  - apply ProcessKeyboardEvents_trace.
  - rewrite !ProcessKeyboardEvents_camera. reflexivity.
Qed.

(** ** How far a key press moves the camera *)

Lemma dot_normalize (v : glm.vec3) :
  0 < glm.dot v v -> glm.dot (glm.normalize v) (glm.normalize v) = 1.
Proof.
  intros Hpos.
  assert (Hr : 0 < sqrt (glm.dot v v)) by (apply sqrt_lt_R0; exact Hpos).
  assert (Hrr : sqrt (glm.dot v v) * sqrt (glm.dot v v) = glm.dot v v)
    by (apply sqrt_sqrt; lra).
  unfold glm.normalize, glm.inversesqrt.
  set (r := sqrt (glm.dot v v)) in *.
  assert (Hk : glm.dot (glm.scale_r v (1 / r)) (glm.scale_r v (1 / r))
               = glm.dot v v * (/ r * / r))
    by (unfold glm.dot, glm.scale_r; simpl; unfold Rdiv; ring).
  rewrite Hk, <- Hrr. field. lra.
Qed.

Lemma dot_scale_r_scale_r (v : glm.vec3) (k : R) :
  glm.dot (glm.scale_r v k) (glm.scale_r v k) = k * k * glm.dot v v.
Proof.
  unfold glm.dot, glm.scale_r; simpl. ring.
Qed.

Lemma dot_scale_scale (k : R) (v : glm.vec3) :
  glm.dot (glm.scale k v) (glm.scale k v) = k * k * glm.dot v v.
Proof.
  unfold glm.dot, glm.scale; simpl. ring.
Qed.

Lemma step_Up (s : State) (o : Op) : Up (g_pCamera (step s o)) = Up (g_pCamera s).
Proof.
  destruct o; cbn [step].
  - now rewrite CreateDisplayWindow_camera.
  - apply (Mouse_Position_Callback_frame s xMousePos yMousePos).
  - apply (ProcessKeyboardEvents_frame s window pressed deltatime).
  - now rewrite PrepareSceneView_camera.
Qed.

Lemma step_Front_unless_mouse (s : State) (o : Op) :
  is_OpMouse o = false -> Front (g_pCamera (step s o)) = Front (g_pCamera s).
Proof.
  destruct o; cbn [step is_OpMouse]; intros H; try discriminate.
  - now rewrite CreateDisplayWindow_camera.
  - apply (ProcessKeyboardEvents_frame s window pressed deltatime).
  - now rewrite PrepareSceneView_camera.
Qed.

(** With the constructor's up vector, the constructor's front vector
    and every front vector a pointer event leaves have a non-zero cross
    product with it. *)
Lemma cross_Front_Up_nonzero (c : Camera) :
  Up c = glm.mkvec3 0 1 0 ->
  Front c = glm.mkvec3 0 (- 0.5) (- 2) \/ oriented c ->
  0 < glm.dot (glm.cross (Front c) (Up c)) (glm.cross (Front c) (Up c)).
Proof.
  intros Hup [Hf | Ho].
  - rewrite Hup, Hf. unfold glm.dot, glm.cross; simpl. lra.
  - destruct (oriented_horizontal c Ho) as [Hh Hcos].
    rewrite Hup. unfold glm.dot, glm.cross; simpl. nra.
Qed.

Lemma reachable_strafe_ready
    (new_Camera : Camera) (sm : option ShaderManager) (ops : list Op) :
  let c := g_pCamera (run (ViewManager new_Camera sm) ops) in
  Up c = glm.mkvec3 0 1 0 /\
  (Front c = glm.mkvec3 0 (- 0.5) (- 2) \/ oriented c).
Proof.
  cbv zeta.
  apply (run_invariant
           (fun s => Up (g_pCamera s) = glm.mkvec3 0 1 0 /\
                     (Front (g_pCamera s) = glm.mkvec3 0 (- 0.5) (- 2) \/
                      oriented (g_pCamera s)))).
  - intros s o [Hup Hf]. split.
    + rewrite step_Up. exact Hup.
    + destruct Hf as [Hf | Ho].
      * destruct (is_OpMouse o) eqn:Em.
        -- right. destruct o; try discriminate. apply oriented_after_pointer_event.
        -- left. rewrite step_Front_unless_mouse by exact Em. exact Hf.
      * right. apply step_oriented. exact Ho.
  - split; [ reflexivity | left; reflexivity ].
Qed.

(** X14.  In every state reached from the constructor, A and D move the
    camera by a distance of exactly [|2.5 * deltatime|]: the strafe
    direction is never the normalisation of a zero vector, because the
    up vector stays (0,1,0) and the pitch bound keeps the front vector
    from being parallel to it. *)
Theorem strafe_distance
    (new_Camera : Camera) (sm : option ShaderManager) (ops : list Op)
    (window : GLFWwindow) (deltatime : R) :
  let s := run (ViewManager new_Camera sm) ops in
  let moved k :=
    glm.sub (Position (g_pCamera (ProcessKeyboardEvents s window (only k) deltatime)))
            (Position (g_pCamera s)) in
  glm.dot (moved GLFW_KEY_D) (moved GLFW_KEY_D) = (2.5 * deltatime) * (2.5 * deltatime) /\
  glm.dot (moved GLFW_KEY_A) (moved GLFW_KEY_A) = (2.5 * deltatime) * (2.5 * deltatime) /\
  0 < glm.dot (glm.cross (Front (g_pCamera s)) (Up (g_pCamera s)))
              (glm.cross (Front (g_pCamera s)) (Up (g_pCamera s))).
Proof.
  cbv zeta.
  destruct (reachable_strafe_ready new_Camera sm ops) as [Hup Hf].
  set (s := run (ViewManager new_Camera sm) ops) in *.
  pose proof (cross_Front_Up_nonzero (g_pCamera s) Hup Hf) as Hpos.
  pose proof (dot_normalize _ Hpos) as Hn.
  rewrite !ProcessKeyboardEvents_camera. cbv zeta.
  unfold set_Position, only. cbn [Position Key_eqb].
  rewrite sub_add_cancel, sub_sub_cancel.
  rewrite dot_scale_scale, !dot_scale_r_scale_r, Hn.
  repeat split; lra.
Qed.

Lemma reachable_forward_ready
    (new_Camera : Camera) (sm : option ShaderManager) (ops : list Op) :
  let s := run (ViewManager new_Camera sm) ops in
  glm.dot (Front (g_pCamera s)) (Front (g_pCamera s))
  = if gFirstMouse s then 4.25 else 1.
Proof.
  cbv zeta.
  apply (run_invariant
           (fun s => glm.dot (Front (g_pCamera s)) (Front (g_pCamera s))
                     = if gFirstMouse s then 4.25 else 1)).
  - intros s o H. rewrite step_gFirstMouse.
    destruct (is_OpMouse o) eqn:Em.
    + rewrite andb_false_r. destruct o; try discriminate. cbn [step].
      destruct (oriented_after_pointer_event s xMousePos yMousePos) as [Hf _].
      rewrite Hf. apply dot_front_of.
    + rewrite andb_true_r, step_Front_unless_mouse by exact Em. exact H.
  - unfold glm.dot; simpl. lra.
Qed.

(** X15.  In a state reached from the constructor, W and S move the
    camera by [|2.5 * deltatime|] once a pointer event has been
    handled, and by [sqrt 4.25] times that before the first one, when
    the front vector is still the constructor's: the squared distance is
    [(2.5 * deltatime)^2], resp. [4.25 * (2.5 * deltatime)^2]. *)
Theorem forward_distance
    (new_Camera : Camera) (sm : option ShaderManager) (ops : list Op)
    (window : GLFWwindow) (deltatime : R) :
  let s := run (ViewManager new_Camera sm) ops in
  let moved k :=
    glm.sub (Position (g_pCamera (ProcessKeyboardEvents s window (only k) deltatime)))
            (Position (g_pCamera s)) in
  let factor := if gFirstMouse s then 4.25 else 1 in
  glm.dot (moved GLFW_KEY_W) (moved GLFW_KEY_W)
  = factor * ((2.5 * deltatime) * (2.5 * deltatime)) /\
  glm.dot (moved GLFW_KEY_S) (moved GLFW_KEY_S)
  = factor * ((2.5 * deltatime) * (2.5 * deltatime)).
Proof.
  cbv beta zeta.
  pose proof (reachable_forward_ready new_Camera sm ops) as Hf. cbv zeta in Hf.
  set (s := run (ViewManager new_Camera sm) ops) in *.
  rewrite !ProcessKeyboardEvents_camera. cbv zeta.
  unfold set_Position, only. cbn [Position Key_eqb].
  rewrite sub_add_cancel, sub_sub_cancel.
  rewrite dot_scale_scale, !dot_scale_scale, Hf.
  split; lra.
Qed.

(** ** What a run uploads *)

Lemma step_trace_Forall (P : Effect -> Prop) (s : State) (o : Op) :
  Forall P (trace s) ->
  (forall w v, P (glfwSetWindowShouldClose w v)) ->
  (forall w h t, P (glfwCreateWindow w h t)) ->
  (forall m, P (cout m)) ->
  P glfwTerminate ->
  (forall w, P (glfwMakeContextCurrent w)) ->
  (forall w, P (glfwSetCursorPosCallback w)) ->
  P glEnable_GL_BLEND ->
  P glBlendFunc_SRC_ALPHA_ONE_MINUS_SRC_ALPHA ->
  (forall sm, m_pShaderManager s = Some sm ->
              P (setMat4Value sm g_ViewName (GetViewMatrix (g_pCamera s))) /\
              P (setMat4Value sm g_ProjectionName (projection_of (g_pCamera s)))) ->
  Forall P (trace (step s o)).
Proof.
  intros Ht Hclose Hcreate Hcout Hterm Hmake Hcb Hen Hbl Hup.
  rewrite step_trace. apply Forall_app. split; [ exact Ht | ].
  destruct o as [t [w | ] | xp yp | w pressed dt | ].
  - repeat constructor; auto.
  - repeat constructor; auto.
  - constructor.
  - destruct (pressed GLFW_KEY_ESCAPE); repeat constructor; auto.
  - destruct (m_pShaderManager s) as [sm | ] eqn:E; [ | constructor ].
    destruct (Hup sm eq_refl) as [Hv Hp]. repeat constructor; assumption.
Qed.

(** X16.  Every upload in the trace of a run from the constructor goes
    to the shader manager the constructor was given, under the name
    "view" or "projection", and every projection upload carries the
    same matrix, [perspective (radians 80) (1000 / 800) 0.1 100]: no
    operation changes the zoom, the window size constants or the bound
    shader manager. *)
Theorem uploads_go_to_the_bound_shader
    (new_Camera : Camera) (shader : ShaderManager) (ops : list Op) :
  Forall
    (fun e =>
       match e with
       | setMat4Value h name m =>
           h = shader /\
           (name = g_ViewName \/
            (name = g_ProjectionName /\
             m = glm.perspective (glm.radians 80) (1000 / 800) 0.1 100))
       | _ => True
       end)
    (trace (run (ViewManager new_Camera (Some shader)) ops)).
Proof.
  set (P := fun e =>
              match e with
              | setMat4Value h name m =>
                  h = shader /\
                  (name = g_ViewName \/
                   (name = g_ProjectionName /\
                    m = glm.perspective (glm.radians 80) (1000 / 800) 0.1 100))
              | _ => True
              end).
  assert (H : m_pShaderManager (run (ViewManager new_Camera (Some shader)) ops)
              = Some shader /\
              Zoom (g_pCamera (run (ViewManager new_Camera (Some shader)) ops)) = 80 /\
              Forall P (trace (run (ViewManager new_Camera (Some shader)) ops))).
  { apply (run_invariant
             (fun s => m_pShaderManager s = Some shader /\
                       Zoom (g_pCamera s) = 80 /\
                       Forall P (trace s))).
    - intros s o (Hsm & Hz & Ht).
      split; [ rewrite step_m_pShaderManager; exact Hsm | ].
      split; [ rewrite step_Zoom; exact Hz | ].
      apply step_trace_Forall; try exact Ht; try (intros; exact I); try exact I.
      intros sm' E. rewrite Hsm in E. injection E as <-.
      split; unfold P.
      + split; [ reflexivity | left; reflexivity ].
      + split; [ reflexivity | right; split; [ reflexivity | ] ].
        unfold projection_of. rewrite Hz. reflexivity.
    - split; [ reflexivity | split; [ reflexivity | constructor ] ]. }
  destruct H as (_ & _ & H). exact H.
Qed.
